(** * app.py: rate limiter, payload validator and love-stats service

    A shallow embedding of the three classes of [app.py] that carry logic
    ([RateLimiter], [DataValidator], [LoveStatsService]) together with the
    module-level state they read and write ([Config.MOCK_LOVE_STATS] and
    [rate_limiter.request_counts]).

    Modelling decisions, all taken from the source:
    - a decoded JSON payload is a [pyvalue]; a Python [dict] with string keys
      whose iteration order matters (the payload) is an association list in
      insertion order, and a [dict] only used as a map (the stored
      categories, the per-address windows) is a [gmap];
    - Python integers are unbounded, hence [Z]; [bool] is a subclass of [int];
    - [time.time()] is the second argument of the functions that read the
      clock.  A timestamp is a finite binary64 number, held as the rational
      it denotes; the one float computation of the code, the test
      [current_time - req_time < 60], is modelled with its rounding (see
      [RateLimiter.in_window]);
    - [str()] of a payload, which the success log line of [update_stats]
      evaluates, raises [ValueError] on an integer of more than 4300 digits
      (the interpreter's default limit, CPython 3.11); [json.loads] has the
      same limit.  Exhaustion of the interpreter's stack or memory is not
      modelled;
    - [datetime.now(timezone.utc).isoformat()] is likewise an argument, the
      ISO-8601 text of the clock reading;
    - exceptions are an explicit outcome, [try]/[except] is [try_except]. *)

From Stdlib Require Import QArith Lqa.
From Stdlib Require Import Sorted.
From Stdlib Require Import PrimFloat.
From Stdlib Require FloatOps SpecFloat.
From stdpp Require Import gmap strings list fin_maps.

Set Warnings "-register-all".
Local Open Scope string_scope.

(** ** Python values *)

Inductive pyvalue : Type :=
| PNone
| PBool (b : bool)
| PInt (z : Z)
| PFloat (bits : Z)                       (* IEEE-754 binary64 bit pattern *)
| PStr (s : string)
| PList (l : list pyvalue)
| PDict (items : list (string * pyvalue)).

(** [isinstance(value, int)]: true for [int] and for its subclass [bool]. *)
Definition isinstance_int (value : pyvalue) : bool :=
  match value with
  | PInt _ | PBool _ => true
  | _ => false
  end.

(** [isinstance(value, dict)]. *)
Definition isinstance_dict (value : pyvalue) : bool :=
  match value with
  | PDict _ => true
  | _ => false
  end.

(** The integer an [int] instance denotes in arithmetic and comparisons
    ([True] is 1 and [False] is 0). *)
Definition int_value (value : pyvalue) : option Z :=
  match value with
  | PInt z => Some z
  | PBool true => Some 1%Z
  | PBool false => Some 0%Z
  | _ => None
  end.

(** [value < 0] for an [int] instance. *)
Definition lt_zero (value : pyvalue) : bool :=
  match int_value value with
  | Some z => (z <? 0)%Z
  | None => false
  end.

(** Truth value of an object, as tested by [if obj:]. *)
Definition truthy (value : pyvalue) : bool :=
  match value with
  | PNone => false
  | PBool b => b
  | PInt z => negb (z =? 0)%Z
  | PFloat bits => negb (bits `mod` 2 ^ 63 =? 0)%Z     (* 0.0 and -0.0 are false *)
  | PStr s => negb (String.eqb s "")
  | PList l => match l with [] => false | _ => true end
  | PDict items => match items with [] => false | _ => true end
  end.

(** [d.get(key)] on the items of a dict: the bound value, or [None]. *)
Fixpoint dict_get (items : list (string * pyvalue)) (key : string) : pyvalue :=
  match items with
  | [] => PNone
  | (k, v) :: rest => if String.eqb k key then v else dict_get rest key
  end.


(** ** Exceptions *)

Inductive exn : Type := AttributeError | ValueError.

Inductive outcome (A : Type) : Type :=
| Return (a : A)
| Raise (e : exn).
Arguments Return {A} a.
Arguments Raise {A} e.

(** [data.get(key)]: only a dict has the attribute. *)
Definition py_get (data : pyvalue) (key : string) : outcome pyvalue :=
  match data with
  | PDict items => Return (dict_get items key)
  | _ => Raise AttributeError
  end.

(** [obj.items()]. *)
Definition py_items (obj : pyvalue) : outcome (list (string * pyvalue)) :=
  match obj with
  | PDict items => Return items
  | _ => Raise AttributeError
  end.

(** [value is None]. *)
Definition is_none (value : pyvalue) : bool :=
  match value with
  | PNone => true
  | _ => false
  end.

(** [sys.get_int_max_str_digits()], as the interpreter starts. *)
Definition INT_MAX_STR_DIGITS : Z := 4300.

(** Whether [str(value)] raises: the decimal form of an integer with more
    than [INT_MAX_STR_DIGITS] digits (the sign not counted) is refused
    with [ValueError], also inside a list or a dict; booleans, floats,
    strings and [None] always print. *)
Fixpoint str_raises (value : pyvalue) : bool :=
  match value with
  | PInt z => (10 ^ INT_MAX_STR_DIGITS <=? Z.abs z)%Z
  | PList l => existsb str_raises l
  | PDict items => existsb (λ kv, str_raises kv.2) items
  | _ => false
  end.

(** An f-string that formats [value]. *)
Definition py_format (value : pyvalue) : outcome unit :=
  if str_raises value then Raise ValueError else Return tt.

(** ** Config.MOCK_LOVE_STATS *)

(** The module-level record the service reads and writes in place. *)
Record StatsRecord : Type := mkStats {
  donation : pyvalue;
  benefit_categories : gmap string pyvalue;
  last_updated : string
}.

Module Config.

Definition RATE_LIMIT_WINDOW : Z := 60.
Definition RATE_LIMIT_MAX : nat := 100.
Definition API_CACHE_MAX_AGE : Z := 300.

(** The categories of the seed record, in source order. *)
Definition SEED_CATEGORIES : list (string * pyvalue) :=
  [ ("total_donation", PInt 714649);
    ("visually_impaired", PInt 488540);
    ("medical_staff", PInt 133468);
    ("filial_piety", PInt 3155);
    ("matsu_resident", PInt 1160);
    ("new_resident", PInt 1674);
    ("beach_cleanup", PInt 3780);
    ("allpass", PInt 78807) ].

(** The record as built when the module is imported; [boot_time] is the
    clock reading taken at that moment. *)
Definition MOCK_LOVE_STATS (boot_time : string) : StatsRecord :=
  {| donation := PInt 714649;
     benefit_categories := list_to_map SEED_CATEGORIES;
     last_updated := boot_time |}.

End Config.

(** The fixed set of category names. *)
Definition ALLOWED_KEYS : gset string :=
  list_to_set (Config.SEED_CATEGORIES.*1).

(** ** DataValidator *)

Module DataValidator.

Definition validate_positive_integer (value : pyvalue) (field_name : string)
  : bool * option string :=
  if is_none value then (true, None)
  else if negb (isinstance_int value) || lt_zero value then
    (false, Some ("Invalid value for " +:+ field_name +:+ ": must be a positive integer"))
  else (true, None).

(** The [for key, value in categories.items()] loop. *)
Fixpoint validate_entries (allowed_keys : gset string)
    (items : list (string * pyvalue)) : bool * option string :=
  match items with
  | [] => (true, None)
  | (key, value) :: rest =>
      if negb (bool_decide (key ∈ allowed_keys)) then
        (false, Some ("Unknown benefit category: " +:+ key))
      else
        let '(is_valid, error_msg) := validate_positive_integer value key in
        if negb is_valid then (false, error_msg)
        else validate_entries allowed_keys rest
  end.

(** [stats] is the value of [Config.MOCK_LOVE_STATS] when the call runs. *)
Definition validate_benefit_categories (stats : StatsRecord) (categories : pyvalue)
  : bool * option string :=
  match categories with
  | PNone => (true, None)
  | PDict items =>
      let allowed_keys : gset string := dom (benefit_categories stats) in
      validate_entries allowed_keys items
  | _ => (false, Some "benefit_categories must be a dictionary")
  end.

End DataValidator.

(** ** A state-and-exception monad over the stored record *)

Definition StatsM (A : Type) : Type := StatsRecord → outcome A * StatsRecord.

Definition ret {A} (a : A) : StatsM A := λ st, (Return a, st).

Definition bind {A B} (m : StatsM A) (k : A → StatsM B) : StatsM B :=
  λ st, match m st with
        | (Return a, st') => k a st'
        | (Raise e, st') => (Raise e, st')
        end.

Definition lift {A} (o : outcome A) : StatsM A := λ st, (o, st).

Definition read_stats : StatsM StatsRecord := λ st, (Return st, st).

Definition write_stats (f : StatsRecord → StatsRecord) : StatsM unit :=
  λ st, (Return tt, f st).

(** [try: body except Exception: handler]; the writes made by [body] before
    it raised are kept. *)
Definition try_except {A} (body : StatsM A) (handler : exn → StatsM A) : StatsM A :=
  λ st, match body st with
        | (Return a, st') => (Return a, st')
        | (Raise e, st') => handler e st'
        end.

Declare Scope stats_scope.
Delimit Scope stats_scope with stats.
Notation "x <- m ;; k" := (bind m (λ x, k))
  (at level 100, m at next level, k at level 200, right associativity) : stats_scope.
Notation "m ;;; k" := (bind m (λ _, k))
  (at level 100, k at level 200, right associativity) : stats_scope.

(** [for x in xs: body(x)]. *)
Fixpoint for_each {A} (xs : list A) (body : A → StatsM unit) : StatsM unit :=
  match xs with
  | [] => ret tt
  | x :: rest => bind (body x) (λ _, for_each rest body)
  end.

(** ** LoveStatsService.update_stats *)

Module LoveStatsService.

Import DataValidator.

(** [Config.MOCK_LOVE_STATS["donation"] = v] *)
Definition set_donation (v : pyvalue) : StatsM unit :=
  write_stats (λ st, mkStats v (benefit_categories st) (last_updated st)).

(** [Config.MOCK_LOVE_STATS["benefit_categories"][key] = v] *)
Definition set_category (key : string) (v : pyvalue) : StatsM unit :=
  write_stats (λ st, mkStats (donation st) (<[key := v]> (benefit_categories st))
                             (last_updated st)).

(** [Config.MOCK_LOVE_STATS["last_updated"] = now] *)
Definition set_last_updated (now : string) : StatsM unit :=
  write_stats (λ st, mkStats (donation st) (benefit_categories st) now).

Definition INTERNAL_ERROR : string := "Internal server error during update".

Local Open Scope stats_scope.

Definition update_stats (now : string) (data : pyvalue)
  : StatsM (bool * option string) :=
  try_except
    (donation <- lift (py_get data "donation") ;;
     let '(is_valid, error_msg) := validate_positive_integer donation "donation" in
     if negb is_valid then ret (false, error_msg) else
     benefit_categories <- lift (py_get data "benefit_categories") ;;
     stats <- read_stats ;;
     let '(is_valid, error_msg) := validate_benefit_categories stats benefit_categories in
     if negb is_valid then ret (false, error_msg) else
     (if negb (is_none donation) then set_donation donation else ret tt) ;;;
     (if truthy benefit_categories then
        items <- lift (py_items benefit_categories) ;;
        for_each items (λ '(key, value),
          if negb (is_none value) then set_category key value else ret tt)
      else ret tt) ;;;
     set_last_updated now ;;;
     lift (py_format data) ;;;
     ret (true, None))
    (λ e, ret (false, Some INTERNAL_ERROR)).

End LoveStatsService.

Import DataValidator LoveStatsService.

(** ** RateLimiter *)

(** [x < y] on timestamps, as a boolean. *)
Definition Qltb (x y : Q) : bool :=
  match (x ?= y)%Q with
  | Lt => true
  | _ => false
  end.

Module RateLimiter.

(** The instance state: [self.request_counts]. *)
Record t : Type := mk {
  request_counts : gmap string (list Q)
}.

(** [__init__] *)
Definition init : t := {| request_counts := ∅ |}.

(** The least exact difference that the binary64 subtraction rounds up to
    [Config.RATE_LIMIT_WINDOW]: the midpoint 60 - 2^-48 between 60 and the
    float below it, 60 - 2^-47 (a tie goes to 60, whose significand is
    even). *)
Definition WINDOW_CUTOFF : Q :=
  inject_Z Config.RATE_LIMIT_WINDOW - (1 # 2 ^ 48).

(** The condition of the comprehension that keeps a recorded request,
    [current_time - req_time < Config.RATE_LIMIT_WINDOW].  The subtraction
    is the binary64 one, rounded to nearest, ties to even; its result is
    below 60 exactly when the exact difference is below [WINDOW_CUTOFF]
    (a difference too large for a float becomes [inf], one too small
    [-inf], on the sides of 60 on which the exact difference lies). *)
Definition in_window (current_time req_time : Q) : bool :=
  Qltb (current_time - req_time) WINDOW_CUTOFF.

(** [is_allowed]; [current_time] is the value of [time.time()]. *)
Definition is_allowed (current_time : Q) (ip : string) (self : t) : bool * t :=
  let counts0 := request_counts self in
  let counts1 :=
    if bool_decide (ip ∈ dom counts0) then counts0 else <[ip := []]> counts0 in
  let kept := List.filter (in_window current_time) (counts1 !!! ip) in
  let counts2 := <[ip := kept]> counts1 in
  if (Config.RATE_LIMIT_MAX <=? length (counts2 !!! ip))%nat then
    (false, mk counts2)
  else
    (true, mk (<[ip := (counts2 !!! ip ++ [current_time])%list]> counts2)).

End RateLimiter.

(** The window of an identifier: the timestamps recorded for it, none when
    the identifier was never seen. *)
Definition window (self : RateLimiter.t) (ip : string) : list Q :=
  RateLimiter.request_counts self !!! ip.

(** A sequence of requests, each with its identifier and the clock reading
    of its check, served by one limiter: the answers and the final state. *)
Fixpoint run_requests (calls : list (string * Q)) (self : RateLimiter.t)
    : list bool * RateLimiter.t :=
  match calls with
  | [] => ([], self)
  | (ip, now) :: rest =>
      let '(ok, self') := RateLimiter.is_allowed now ip self in
      let '(oks, self'') := run_requests rest self' in
      (ok :: oks, self'')
  end.

(** The clock readings of the requests of [ip] in a sequence. *)
Definition times_of (ip : string) (calls : list (string * Q)) : list Q :=
  (List.filter (λ c, String.eqb c.1 ip) calls).*2.

(** ** Dict objects and references: get_current_stats

    [update_stats] and the validators only read and write the contents of
    [Config.MOCK_LOVE_STATS]; [get_current_stats] hands a dict to its
    caller, so for it the dict objects themselves are modelled: an object
    store maps the identity of each dict to its entries, and an entry
    holds an immutable value or a reference to another dict. *)

Definition loc : Type := nat.

Inductive entry : Type :=
| EVal (v : pyvalue)
| ERef (l : loc).

Module Store.

(** The identity of the dict bound to [Config.MOCK_LOVE_STATS]. *)
Definition MOCK_LOVE_STATS : loc := 0%nat.

(** [d.copy()]: a new dict with the entries of [d]; an entry that is a
    reference is copied as a reference. *)
Definition dict_copy (d : loc) (h : gmap loc (gmap string entry))
    : option (loc * gmap loc (gmap string entry)) :=
  match h !! d with
  | Some o => let d' := fresh (dom h) in Some (d', <[d' := o]> h)
  | None => None
  end.

(** [d[key] = e] *)
Definition setitem (d : loc) (key : string) (e : entry)
    (h : gmap loc (gmap string entry)) : option (gmap loc (gmap string entry)) :=
  match h !! d with
  | Some o => Some (<[d := <[key := e]> o]> h)
  | None => None
  end.

(** [del d[key]]; [None] is the [KeyError]. *)
Definition delitem (d : loc) (key : string)
    (h : gmap loc (gmap string entry)) : option (gmap loc (gmap string entry)) :=
  match h !! d with
  | Some o => if bool_decide (key ∈ dom o) then Some (<[d := delete key o]> h) else None
  | None => None
  end.

(** [d[key]]; [None] is the [KeyError]. *)
Definition getitem (d : loc) (key : string) (h : gmap loc (gmap string entry))
    : option entry :=
  match h !! d with
  | Some o => o !! key
  | None => None
  end.

(** [LoveStatsService.get_current_stats]; [now] is the text of
    [datetime.now(timezone.utc).isoformat()].  The result is the identity
    of the returned dict and the store after the call. *)
Definition get_current_stats (now : string) (h : gmap loc (gmap string entry))
    : option (loc * gmap loc (gmap string entry)) :=
  match dict_copy MOCK_LOVE_STATS h with
  | Some (stats, h1) =>
      match getitem stats "last_updated" h1 with
      | Some e =>
          match setitem stats "updatedAt" e h1 with
          | Some h2 => Some (stats, h2)
          | None => None
          end
      | None =>
          match setitem stats "updatedAt" (EVal (PStr now)) h1 with
          | Some h2 => Some (stats, h2)
          | None => None
          end
      end
  | None => None
  end.

End Store.

(** ** Auxiliary definitions used to state the properties *)

(** The categories map after the update loop has run over [items]. *)
Definition apply_categories (items : list (string * pyvalue))
    (bc : gmap string pyvalue) : gmap string pyvalue :=
  foldl (λ m '(key, value), if is_none value then m else <[key := value]> m) bc items.

(** The record after a successful update with donation [d] and category
    items [items] at clock reading [now]. *)
Definition updated (now : string) (d : pyvalue) (items : list (string * pyvalue))
    (st : StatsRecord) : StatsRecord :=
  mkStats (if is_none d then donation st else d)
          (apply_categories items (benefit_categories st))
          now.

(** The items of a categories payload that passed validation. *)
Definition categories_of (c : pyvalue) : list (string * pyvalue) :=
  match c with
  | PDict items => items
  | _ => []
  end.

(** The payload of the spec's third example. *)
Definition example_payload : list (string * pyvalue) :=
  [("donation", PInt 800000);
   ("benefit_categories", PDict [("medical_staff", PInt 140000)])].

(** A sequence of update_stats calls, each with its clock reading and its
    payload, run from [st]; the result is the record left behind. *)
Fixpoint run_updates (calls : list (string * pyvalue)) (st : StatsRecord) : StatsRecord :=
  match calls with
  | [] => st
  | (now, data) :: rest => run_updates rest (update_stats now data st).2
  end.

(** [value >= 0] for an [int] instance, false for any other value. *)
Definition nonneg_int (value : pyvalue) : bool :=
  match int_value value with
  | Some z => (0 <=? z)%Z
  | None => false
  end.

(** The invariant of the stored record. *)
Definition record_ok (st : StatsRecord) : Prop :=
  nonneg_int (donation st) = true ∧
  map_Forall (λ _ v, nonneg_int v = true) (benefit_categories st) ∧
  dom (benefit_categories st) = ALLOWED_KEYS.

(** The integer rule in the spec's words: a value is rejected when it is
    present and is not an integer or is negative. *)
Definition rejected_value (value : pyvalue) : bool :=
  negb (is_none value) && (negb (isinstance_int value) || lt_zero value).

(** An entry of a categories payload that raises no objection. *)
Definition entry_ok (allowed_keys : gset string) (kv : string * pyvalue) : Prop :=
  kv.1 ∈ allowed_keys ∧ rejected_value kv.2 = false.

(** The message of the integer rule. *)
Definition invalid_value_msg (field_name : string) : string :=
  "Invalid value for " +:+ field_name +:+ ": must be a positive integer".

(** A timestamp already out of the window of every check made at or
    after [a]. *)
Definition stale (a old : Q) : Prop := (60 <= a - old)%Q.

(** A clock reading inside the span that starts at [a] and is as long as
    the window the float test sees, 60 - 2^-48 seconds. *)
Definition in_span (a t : Q) : Prop :=
  (a <= t)%Q ∧ (t < a + RateLimiter.WINDOW_CUTOFF)%Q.

(** [in_span], as a boolean. *)
Definition in_spanb (a t : Q) : bool :=
  Qle_bool a t && Qltb t (a + RateLimiter.WINDOW_CUTOFF).

(** A clock reading inside the 60 seconds that start at [a]. *)
Definition in_minute (a t : Q) : Prop :=
  (a <= t)%Q ∧ (t < a + 60)%Q.

(** One hundred requests of one address, half a second apart from second 0
    on, each followed by a request of another address. *)
Definition busy_minute : list (string * Q) :=
  flat_map (λ n, [("203.0.113.7", Z.of_nat n # 2); ("198.51.100.1", Z.of_nat n # 2)])
           (seq 0 100).

(** ** The stored record seen through the object store *)

Definition entry_value (e : entry) : option pyvalue :=
  match e with
  | EVal v => Some v
  | ERef _ => None
  end.

Definition entry_ref (e : entry) : option loc :=
  match e with
  | ERef l => Some l
  | EVal _ => None
  end.

Definition entry_str (e : entry) : option string :=
  match e with
  | EVal (PStr s) => Some s
  | _ => None
  end.

(** The layout of the record as two dict objects, the second being the
    nested categories dict. *)
Definition store_of (st : StatsRecord) : gmap loc (gmap string entry) :=
  {[ Store.MOCK_LOVE_STATS :=
       {[ "donation" := EVal (donation st);
          "benefit_categories" := ERef 1%nat;
          "last_updated" := EVal (PStr (last_updated st)) ]};
     1%nat := EVal <$> benefit_categories st ]}.

(** The stored record as read through [Config.MOCK_LOVE_STATS]. *)
Definition stats_of (h : gmap loc (gmap string entry)) : option StatsRecord :=
  top ← h !! Store.MOCK_LOVE_STATS;
  d ← top !! "donation" ≫= entry_value;
  l ← top !! "benefit_categories" ≫= entry_ref;
  bc ← h !! l;
  lu ← top !! "last_updated" ≫= entry_str;
  Some (mkStats d (omap entry_value bc) lu).

(** What a caller can do to the dict it was handed. *)
Inductive mutation : Type :=
| SetItem (key : string) (v : pyvalue)              (* r[key] = v *)
| DelItem (key : string)                            (* del r[key] *)
| SetNested (field key : string) (v : pyvalue).     (* r[field][key] = v *)

Definition mutate (r : loc) (m : mutation) (h : gmap loc (gmap string entry))
    : option (gmap loc (gmap string entry)) :=
  match m with
  | SetItem key v => Store.setitem r key (EVal v) h
  | DelItem key => Store.delitem r key h
  | SetNested field key v =>
      match Store.getitem r field h with
      | Some (ERef l) => Store.setitem l key (EVal v) h
      | _ => None
      end
  end.

(** A mutation that stays at the top level of the dict. *)
Definition top_level (m : mutation) : bool :=
  match m with
  | SetItem _ _ | DelItem _ => true
  | SetNested _ _ _ => false
  end.

(** ** Further definitions: successive updates *)

(** The value the update loop leaves under [key]: the last non-null value
    the items bind to it, if any. *)
Fixpoint last_value (items : list (string * pyvalue)) (key : string) : option pyvalue :=
  match items with
  | [] => None
  | (k, v) :: rest =>
      match last_value rest key with
      | Some v' => Some v'
      | None => if String.eqb k key && negb (is_none v) then Some v else None
      end
  end.

(** ** Further definitions: runs of the rate limiter *)

(** The clock readings of the requests of [ip] that were admitted, given
    the requests and the answers they got. *)
Fixpoint admitted_of (ip : string) (calls : list (string * Q)) (oks : list bool)
    : list Q :=
  match calls, oks with
  | (ip0, now) :: calls', ok :: oks' =>
      if String.eqb ip0 ip && ok then now :: admitted_of ip calls' oks'
      else admitted_of ip calls' oks'
  | _, _ => []
  end.

(** The answers given to the requests of [ip]. *)
Fixpoint answers_of (ip : string) (calls : list (string * Q)) (oks : list bool)
    : list bool :=
  match calls, oks with
  | (ip0, _) :: calls', ok :: oks' =>
      if String.eqb ip0 ip then ok :: answers_of ip calls' oks'
      else answers_of ip calls' oks'
  | _, _ => []
  end.

(** The requests of [ip] alone. *)
Definition requests_of (ip : string) (calls : list (string * Q)) : list (string * Q) :=
  List.filter (λ c, String.eqb c.1 ip) calls.

(** A limiter in which one address has used up its hundred requests, all
    at second 0. *)
Definition blocked_limiter : RateLimiter.t :=
  RateLimiter.mk {[ "203.0.113.7" := replicate 100 0%Q ]}.

(** The busy minute followed by three more requests of the first address:
    at second 59, at second 59.5 and at second 61. *)
Definition crowded_run : list (string * Q) :=
  (busy_minute ++ [("203.0.113.7", 59%Q); ("203.0.113.7", 119 # 2);
                   ("203.0.113.7", 61%Q)])%list.

(** Clock readings that never go back, as a boolean. *)
Fixpoint nondecreasing (l : list Q) : bool :=
  match l with
  | x :: (y :: _) as rest => Qle_bool x y && nondecreasing rest
  | _ => true
  end.

(** ** The float test against the primitive binary64 operations *)

(** The rational a finite binary64 number denotes. *)
Definition float_value (x : float) : option Q :=
  match FloatOps.Prim2SF x with
  | SpecFloat.S754_zero _ => Some 0%Q
  | SpecFloat.S754_finite s m e =>
      let n := if s then Z.neg m else Z.pos m in
      Some (if (0 <=? e)%Z then inject_Z (n * 2 ^ e) else (n # Z.to_pos (2 ^ (- e))))
  | _ => None
  end.

(** [current_time - req_time < 60] as the interpreter computes it. *)
Definition float_in_window (current_time req_time : float) : bool :=
  PrimFloat.ltb (PrimFloat.sub current_time req_time) 60%float.

(** Pairs (current_time, req_time) around the rounding boundary of the
    test, at the scale of Unix time, and at the ends of the float range. *)
Definition binary64_samples : list (float * float) :=
  [ (60, 0x1p-60); (60, 0x1p-49); (60, 0x1p-48); (60, 0x1.0000000000001p-48);
    (60, 0x1.8p-48); (60, 0x1p-47); (60, 0x1p-46); (60, 0); (59, 0); (61, 0);
    (61, 1); (61, 0x1.0000000000001p+0); (61, 0x1.fffffffffffffp-1);
    (0x1p-60, 0x1p-60); (0, 5); (5, 0x1p+100); (0x1p+100, 0);
    (0x1.fffffffffffffp+1023, -0x1.fffffffffffffp+1023);
    (-0x1.fffffffffffffp+1023, 0x1.fffffffffffffp+1023);
    (1700000060, 1700000000); (1700000059.75, 1700000000);
    (1700000060, 1700000000.25); (1700000060.25, 1700000000);
    (1700000059.5, 1699999999.5); (0x1.954fc40fp+30, 0x1.954fc4p+30);
    (0x1.954fc40f00001p+30, 0x1.954fc40000001p+30);
    (0x1.954fc40f00001p+30, 0x1.954fc40000002p+30);
    (0x1.954fc40f00002p+30, 0x1.954fc40000001p+30) ]%float.

(** On which samples the model and the float computation agree. *)
Definition agrees_on (p : float * float) : bool :=
  match float_value p.1, float_value p.2 with
  | Some current_time, Some req_time =>
      Bool.eqb (RateLimiter.in_window current_time req_time) (float_in_window p.1 p.2)
  | _, _ => false
  end.

(** ** The request decorator and the update endpoint *)

(** What the handlers read of [flask.request].  [json_body] is the JSON
    document in the body, [None] when the body is not well-formed JSON. *)
Record Request : Type := mkRequest {
  remote_addr : option string;
  is_json : bool;
  json_body : option pyvalue
}.

(** [request.get_json()]: the decoded body, or [None] when the call raises
    [BadRequest].  It raises when the body is not well-formed and when
    [json.loads] refuses it: an integer literal of more than
    [INT_MAX_STR_DIGITS] digits is refused with [ValueError] by the
    conversion from text, under the limit that [str] applies in the other
    direction. *)
Definition get_json (req : Request) : option pyvalue :=
  match json_body req with
  | Some data => if str_raises data then None else Some data
  | None => None
  end.

(** The module-level state the handlers share: [rate_limiter] and
    [Config.MOCK_LOVE_STATS]. *)
Record App : Type := mkApp {
  rate_limiter : RateLimiter.t;
  love_stats : StatsRecord
}.

(** A response: the value handed to [jsonify] and the status code. *)
Definition Response : Type := pyvalue * Z.

(** [{"error": msg}] *)
Definition error_body (msg : pyvalue) : pyvalue := PDict [("error", msg)].

(** An [Optional[str]] as a value. *)
Definition optional_str (msg : option string) : pyvalue :=
  match msg with
  | Some s => PStr s
  | None => PNone
  end.

(** A view function: it reads the request and the clock and works on the
    stored record. *)
Definition View : Type := Request → string → StatsRecord → Response * StatsRecord.

(** [request.remote_addr or 'unknown'] *)
Definition client_ip_of (req : Request) : string :=
  match remote_addr req with
  | Some addr => if truthy (PStr addr) then addr else "unknown"
  | None => "unknown"
  end.

(** [rate_limit_required(f)]; [current_time] is [time.time()] as read by
    the limiter. *)
Definition rate_limit_required (f : View) (req : Request) (current_time : Q)
    (now : string) (app : App) : Response * App :=
  let client_ip := client_ip_of req in
  let '(allowed, limiter) :=
    RateLimiter.is_allowed current_time client_ip (rate_limiter app) in
  if negb allowed then
    ((error_body (PStr "Rate limit exceeded"), 429%Z), mkApp limiter (love_stats app))
  else
    let '(response, stats) := f req now (love_stats app) in
    (response, mkApp limiter stats).

(** The body of [api_update_love_stats], before decoration. *)
Definition api_update_love_stats_view : View := λ req now stats,
  if negb (is_json req) then
    ((error_body (PStr "Content-Type must be application/json"), 400%Z), stats)
  else
    match get_json req with
    | None => ((error_body (PStr "Internal server error"), 500%Z), stats)
    | Some data =>
        if negb (truthy data) then
          ((error_body (PStr "No data provided"), 400%Z), stats)
        else
          match update_stats now data stats with
          | (Return (success, error_msg), stats') =>
              if negb success then
                ((error_body (optional_str error_msg), 400%Z), stats')
              else
                ((PDict [("message", PStr "Stats updated successfully")], 200%Z), stats')
          | (Raise _, stats') =>
              ((error_body (PStr "Internal server error"), 500%Z), stats')
          end
    end.

(** [api_update_love_stats]: the view under [@rate_limit_required]. *)
Definition api_update_love_stats : Request → Q → string → App → Response * App :=
  rate_limit_required api_update_love_stats_view.


(** * Properties of the validator and of update_stats *)

Section UpdateStats.

Implicit Types (st : StatsRecord) (items : list (string * pyvalue)).

Lemma for_each_categories items st :
  for_each items (λ '(key, value),
      if negb (is_none value) then set_category key value else ret tt) st
  = (Return tt, mkStats (donation st) (apply_categories items (benefit_categories st))
                        (last_updated st)).
Proof.
  revert st. induction items as [|[k v] rest IH]; intros st.
  - by destruct st.
  - cbn [for_each]. unfold bind at 1.
    destruct (is_none v) eqn:Hv; cbn.
    + rewrite IH. unfold apply_categories. cbn. by rewrite Hv.
    + rewrite IH. unfold apply_categories. cbn. by rewrite Hv.
Qed.

Lemma validate_categories_shape st c :
  (validate_benefit_categories st c).1 = true → c = PNone ∨ ∃ items, c = PDict items.
Proof. destruct c; cbn; intros; try discriminate; eauto. Qed.

Lemma validator_ok_msg v f : (validate_positive_integer v f).1 = true →
  validate_positive_integer v f = (true, None).
Proof.
  unfold validate_positive_integer.
  destruct (is_none v); [done|].
  by destruct (negb (isinstance_int v) || lt_zero v).
Qed.

Lemma validate_entries_ok_msg allowed items :
  (validate_entries allowed items).1 = true → validate_entries allowed items = (true, None).
Proof.
  induction items as [|[k v] rest IH]; cbn; [done|].
  destruct (negb (bool_decide (k ∈ allowed))); [done|].
  destruct (validate_positive_integer v k) as [[] msg]; cbn; [apply IH|done].
Qed.

Lemma validate_categories_ok_msg st c :
  (validate_benefit_categories st c).1 = true →
  validate_benefit_categories st c = (true, None).
Proof. destruct c; cbn; try done. apply validate_entries_ok_msg. Qed.

(** What [update_stats] does on a mapping payload, by cases on the two
    validations and on the formatting of the log line. *)
Lemma update_stats_dict now items st :
  update_stats now (PDict items) st =
    let d := dict_get items "donation" in
    let c := dict_get items "benefit_categories" in
    match validate_positive_integer d "donation" with
    | (false, msg) => (Return (false, msg), st)
    | (true, _) =>
        match validate_benefit_categories st c with
        | (false, msg) => (Return (false, msg), st)
        | (true, _) =>
            (Return (if str_raises (PDict items) then (false, Some INTERNAL_ERROR)
                     else (true, None)),
             updated now d (categories_of c) st)
        end
    end.
Proof.
  unfold update_stats, py_format.
  generalize (str_raises (PDict items)) as raises. intros raises.
  unfold try_except, bind, lift, read_stats. cbn [py_get].
  cbv zeta.
  destruct (validate_positive_integer _ "donation") as [[] m1]; cbn; [|done].
  destruct (validate_benefit_categories st _) as [[] m2] eqn:Hc; cbn; [|done].
  assert (Hs : (validate_benefit_categories st (dict_get items "benefit_categories")).1 = true)
    by (by rewrite Hc).
  apply validate_categories_shape in Hs as [Hs|[cats Hs]]; rewrite Hs; clear Hc Hs.
  - destruct (is_none (dict_get items "donation")) eqn:Hd; cbn;
      unfold updated; rewrite Hd; destruct raises; by destruct st.
  - destruct cats as [|kv cats].
    + destruct (is_none (dict_get items "donation")) eqn:Hd; cbn;
        unfold updated; rewrite Hd; destruct raises; by destruct st.
    + cbn [truthy py_items categories_of].
      destruct (is_none (dict_get items "donation")) eqn:Hd; cbn -[for_each];
        rewrite for_each_categories; unfold updated; rewrite Hd;
        destruct raises; by destruct st.
Qed.

(** A payload that is not a mapping has no [get]: the handler answers. *)
Lemma update_stats_not_dict now data st :
  isinstance_dict data = false →
  update_stats now data st = (Return (false, Some INTERNAL_ERROR), st).
Proof. by destruct data. Qed.



Lemma validator_fail_msg v f : (validate_positive_integer v f).1 = false →
  ∃ msg, validate_positive_integer v f = (false, Some msg).
Proof.
  unfold validate_positive_integer.
  destruct (is_none v); [done|].
  destruct (negb (isinstance_int v) || lt_zero v); [eauto|done].
Qed.

Lemma validate_entries_fail_msg allowed items :
  (validate_entries allowed items).1 = false →
  ∃ msg, validate_entries allowed items = (false, Some msg).
Proof.
  induction items as [|[k v] rest IH]; cbn; [done|].
  destruct (negb (bool_decide (k ∈ allowed))); [eauto|].
  destruct (validate_positive_integer v k) as [[] m] eqn:Hv; cbn; [apply IH|].
  intros _. destruct (validator_fail_msg v k) as [msg Hmsg]; [by rewrite Hv|].
  exists msg. congruence.
Qed.

Lemma validate_categories_fail_msg st c :
  (validate_benefit_categories st c).1 = false →
  ∃ msg, validate_benefit_categories st c = (false, Some msg).
Proof. destruct c; cbn; try done; eauto using validate_entries_fail_msg. Qed.

(** A validated payload is written; the answer then depends on the log
    line alone. *)
Lemma update_stats_written now items st :
  (validate_positive_integer (dict_get items "donation") "donation").1 = true →
  (validate_benefit_categories st (dict_get items "benefit_categories")).1 = true →
  update_stats now (PDict items) st =
    (Return (if str_raises (PDict items) then (false, Some INTERNAL_ERROR)
             else (true, None)),
     updated now (dict_get items "donation")
             (categories_of (dict_get items "benefit_categories")) st).
Proof.
  intros Hd Hc. rewrite update_stats_dict. cbv zeta.
  by rewrite (validator_ok_msg _ _ Hd), (validate_categories_ok_msg _ _ Hc).
Qed.

Lemma update_stats_valid now items st :
  (validate_positive_integer (dict_get items "donation") "donation").1 = true →
  (validate_benefit_categories st (dict_get items "benefit_categories")).1 = true →
  str_raises (PDict items) = false →
  update_stats now (PDict items) st =
    (Return (true, None),
     updated now (dict_get items "donation")
             (categories_of (dict_get items "benefit_categories")) st).
Proof. intros Hd Hc Hs. by rewrite update_stats_written, Hs. Qed.

End UpdateStats.

(** ** C1: a failed validation leaves the record untouched *)

(** C1. For every mapping payload, when the validation of the donation
    field or of the benefit_categories field fails, update_stats returns
    (False, message), the message being the one of the validator that
    failed first, and the stored record (donation, every category,
    last_updated) is the record of before the call. *)
Theorem C1_failed_validation_no_mutation now items st :
  (validate_positive_integer (dict_get items "donation") "donation").1 = false ∨
  (validate_benefit_categories st (dict_get items "benefit_categories")).1 = false →
  ∃ msg, update_stats now (PDict items) st = (Return (false, Some msg), st) ∧
    ((validate_positive_integer (dict_get items "donation") "donation").2 = Some msg ∨
     (validate_benefit_categories st (dict_get items "benefit_categories")).2 = Some msg).
Proof.
  intros Hfail. rewrite update_stats_dict. cbv zeta.
  destruct (validate_positive_integer _ "donation") as [[] m1] eqn:Hd.
  - destruct Hfail as [Hfail|Hfail]; [done|].
    destruct (validate_categories_fail_msg _ _ Hfail) as [msg Hmsg].
    rewrite Hmsg. exists msg. cbn. auto.
  - destruct (validator_fail_msg (dict_get items "donation") "donation") as [msg Hmsg];
      [by rewrite Hd|].
    rewrite Hd in Hmsg. injection Hmsg as ->. exists msg. cbn. auto.
Qed.

(** The payload of the spec's first example fails on its donation. *)
Lemma C1_witness :
  ∃ msg, update_stats "2026-01-01T00:00:00+00:00" (PDict [("donation", PInt (-1))])
           (Config.MOCK_LOVE_STATS "boot")
         = (Return (false, Some msg), Config.MOCK_LOVE_STATS "boot") ∧
    ((validate_positive_integer (dict_get [("donation", PInt (-1))] "donation") "donation").2
       = Some msg ∨
     (validate_benefit_categories (Config.MOCK_LOVE_STATS "boot")
        (dict_get [("donation", PInt (-1))] "benefit_categories")).2 = Some msg).
Proof.
  apply (C1_failed_validation_no_mutation _ [("donation", PInt (-1))]).
  left. reflexivity.
Defined.

(** ** C9: a payload with neither field only stamps the record *)




(** ** C6: what a successful update writes *)



(** ** C3: the invariants of the stored record *)

Section Invariant.

Implicit Types (st : StatsRecord) (items : list (string * pyvalue)).

Lemma validator_ok_value v f :
  (validate_positive_integer v f).1 = true → v = PNone ∨ nonneg_int v = true.
Proof.
  unfold validate_positive_integer, nonneg_int, lt_zero.
  destruct v as [|b|z|?|?|?|?]; cbn; auto; try discriminate.
  { destruct b; cbn; auto. }
  destruct (Z.ltb_spec z 0); cbn; [discriminate|].
  intros _. right. by apply Z.leb_le.
Qed.

Lemma validate_entries_ok allowed items :
  (validate_entries allowed items).1 = true →
  Forall (λ kv, kv.1 ∈ allowed ∧ (kv.2 = PNone ∨ nonneg_int kv.2 = true)) items.
Proof.
  induction items as [|[k v] rest IH]; cbn; [constructor|].
  destruct (bool_decide_reflect (k ∈ allowed)) as [Hk|Hk]; cbn; [|discriminate].
  destruct (validate_positive_integer v k) as [[] m] eqn:Hv; cbn; [|discriminate].
  intros Hrest. constructor; [|by apply IH].
  split; [done|]. apply (validator_ok_value v k). by rewrite Hv.
Qed.

Lemma apply_categories_cons k v items (bc : gmap string pyvalue) :
  apply_categories ((k, v) :: items) bc
  = apply_categories items (if is_none v then bc else <[k := v]> bc).
Proof. reflexivity. Qed.

Lemma apply_categories_dom items (bc : gmap string pyvalue) :
  Forall (λ kv, kv.1 ∈ dom bc) items → dom (apply_categories items bc) = dom bc.
Proof.
  revert bc. induction items as [|[k v] rest IH]; intros bc Hall; [done|].
  apply Forall_cons in Hall as [Hk Hall]. cbn in Hk.
  rewrite apply_categories_cons. destruct (is_none v).
  - by apply IH.
  - assert (Hdom : dom (<[k := v]> bc) = dom bc)     by (rewrite dom_insert_L; by apply subseteq_union_1_L, singleton_subseteq_l).
    rewrite IH, Hdom; [done|]. by rewrite Hdom.
Qed.

Lemma apply_categories_Forall (P : pyvalue → Prop) items (bc : gmap string pyvalue) :
  map_Forall (λ _, P) bc →
  Forall (λ kv, kv.2 = PNone ∨ P kv.2) items →
  map_Forall (λ _, P) (apply_categories items bc).
Proof.
  revert bc. induction items as [|[k v] rest IH]; intros bc Hbc Hall; [done|].
  apply Forall_cons in Hall as [Hv Hall]. cbn in Hv.
  rewrite apply_categories_cons. destruct (is_none v) eqn:Hnone.
  - by apply IH.
  - apply IH; [|done]. apply map_Forall_insert_2; [|done].
    destruct Hv as [->|Hv]; [discriminate|done].
Qed.

Lemma seed_ok boot : record_ok (Config.MOCK_LOVE_STATS boot).
Proof.
  split; [done|]. split.
  - cbn. repeat (apply map_Forall_insert_2; [done|]). apply map_Forall_empty.
  - unfold Config.MOCK_LOVE_STATS. cbn [benefit_categories].
    by rewrite dom_list_to_map_L.
Qed.

Lemma update_stats_preserves now data st :
  record_ok st → record_ok (update_stats now data st).2.
Proof.
  intros (Hd & Hv & Hk).
  destruct (isinstance_dict data) eqn:Hdata.
  2:{ by rewrite update_stats_not_dict. }
  destruct data as [| | | | | |items]; try discriminate. clear Hdata.
  rewrite update_stats_dict. cbv zeta.
  destruct (validate_positive_integer _ "donation") as [[] m1] eqn:H1; [|done].
  destruct (validate_benefit_categories st _) as [[] m2] eqn:H2; [|done].
  cbn.
  assert (Hitems : Forall (λ kv, kv.1 ∈ dom (benefit_categories st) ∧
                                  (kv.2 = PNone ∨ nonneg_int kv.2 = true))
                     (categories_of (dict_get items "benefit_categories"))).
  { destruct (dict_get items "benefit_categories"); cbn; try constructor.
    apply validate_entries_ok. cbn in H2. by rewrite H2. }
  split; [|split].
  - cbn. destruct (is_none _) eqn:Hn; [done|].
    destruct (validator_ok_value (dict_get items "donation") "donation") as [E|E];
      [by rewrite H1| |done].
    by rewrite E in Hn.
  - cbn. apply apply_categories_Forall; [done|].
    eapply Forall_impl; [exact Hitems|]. by intros kv [_ ?].
  - cbn. rewrite apply_categories_dom; [done|].
    eapply Forall_impl; [exact Hitems|]. by intros kv [? _].
Qed.

Lemma run_updates_ok calls st : record_ok st → record_ok (run_updates calls st).
Proof.
  revert st. induction calls as [|[now data] rest IH]; intros st Hst; [done|].
  cbn. by apply IH, update_stats_preserves.
Qed.

Lemma nonneg_int_spec v :
  nonneg_int v = true ↔ ∃ z, int_value v = Some z ∧ (0 ≤ z)%Z.
Proof.
  unfold nonneg_int. destruct (int_value v) as [z|].
  - rewrite Z.leb_le. split; [eauto|]. by intros (z' & [= <-] & ?).
  - split; [done|]. by intros (? & ? & ?).
Qed.

End Invariant.

(** C3. Starting from the seed record, after any sequence of update_stats
    calls (any payloads, any clock readings) the donation is an integer
    value that is >= 0, every value stored under a category is an integer
    value that is >= 0, and the key set of the categories is the fixed
    set of the eight seed names: no update introduces or removes a key.
    (An integer value is an int or a bool, which Python compares as 0 or 1.) *)
Theorem C3_record_invariants boot calls :
  let st := run_updates calls (Config.MOCK_LOVE_STATS boot) in
  (∃ z, int_value (donation st) = Some z ∧ (0 ≤ z)%Z) ∧
  (∀ k v, benefit_categories st !! k = Some v →
          ∃ z, int_value v = Some z ∧ (0 ≤ z)%Z) ∧
  dom (benefit_categories st) = ALLOWED_KEYS.
Proof.
  intros st.
  destruct (run_updates_ok calls _ (seed_ok boot)) as (Hd & Hv & Hk). fold st in Hd, Hv, Hk.
  split; [by apply nonneg_int_spec|]. split; [|done].
  intros k v Hkv. apply nonneg_int_spec. exact (Hv k v Hkv).
Qed.

(** ** C7: the categories validator, case by case *)

Section Validator.

Implicit Types (items pre post : list (string * pyvalue)) (allowed : gset string).

Lemma validator_rule v f :
  validate_positive_integer v f =
    if rejected_value v then (false, Some (invalid_value_msg f)) else (true, None).
Proof.
  unfold validate_positive_integer, rejected_value.
  by destruct (is_none v), (negb (isinstance_int v) || lt_zero v).
Qed.

Lemma validate_entries_step allowed k v rest :
  validate_entries allowed ((k, v) :: rest) =
    if bool_decide (k ∈ allowed) then
      if rejected_value v then (false, Some (invalid_value_msg k))
      else validate_entries allowed rest
    else (false, Some ("Unknown benefit category: " +:+ k)).
Proof.
  cbn [validate_entries]. rewrite validator_rule.
  by destruct (bool_decide (k ∈ allowed)), (rejected_value v).
Qed.

Lemma validate_entries_all_ok allowed items :
  Forall (entry_ok allowed) items → validate_entries allowed items = (true, None).
Proof.
  induction 1 as [|[k v] rest [Hk Hv] _ IH]; [done|].
  cbn in Hk, Hv. rewrite validate_entries_step, Hv, IH.
  by rewrite bool_decide_eq_true_2.
Qed.

(** The entries before the first offending one do not matter. *)
Lemma validate_entries_skip allowed pre rest :
  Forall (entry_ok allowed) pre →
  validate_entries allowed (pre ++ rest) = validate_entries allowed rest.
Proof.
  induction 1 as [|[k v] pre' [Hk Hv] _ IH]; [done|].
  cbn in Hk, Hv. rewrite <- app_comm_cons, validate_entries_step, Hv, IH.
  by rewrite bool_decide_eq_true_2.
Qed.

End Validator.

(** C7. In every state the service can reach, validate_benefit_categories
    answers as follows.  None is valid.  A value that is neither None nor
    a mapping is rejected with "benefit_categories must be a dictionary".
    For a mapping the entries are examined in order and the first
    offending entry decides: a key outside the fixed allowed set gives
    "Unknown benefit category: {key}", an allowed key whose value the
    integer rule rejects gives "Invalid value for {key}: must be a
    positive integer" (which is what validate_positive_integer returns for
    it), and a mapping without offending entry is valid.  The integer rule
    accepts None and rejects every other value that is not an integer or
    is negative. *)
Theorem C7_validate_benefit_categories boot calls :
  let st := run_updates calls (Config.MOCK_LOVE_STATS boot) in
  validate_benefit_categories st PNone = (true, None) ∧
  (∀ c, is_none c = false → isinstance_dict c = false →
        validate_benefit_categories st c
        = (false, Some "benefit_categories must be a dictionary")) ∧
  (∀ items, Forall (entry_ok ALLOWED_KEYS) items →
        validate_benefit_categories st (PDict items) = (true, None)) ∧
  (∀ pre k v post, Forall (entry_ok ALLOWED_KEYS) pre → k ∉ ALLOWED_KEYS →
        validate_benefit_categories st (PDict (pre ++ (k, v) :: post))
        = (false, Some ("Unknown benefit category: " +:+ k))) ∧
  (∀ pre k v post, Forall (entry_ok ALLOWED_KEYS) pre → k ∈ ALLOWED_KEYS →
        rejected_value v = true →
        validate_benefit_categories st (PDict (pre ++ (k, v) :: post))
        = (false, Some ("Invalid value for " +:+ k +:+ ": must be a positive integer")) ∧
        validate_benefit_categories st (PDict (pre ++ (k, v) :: post))
        = validate_positive_integer v k) ∧
  (∀ v field_name,
        validate_positive_integer v field_name =
          if rejected_value v
          then (false, Some ("Invalid value for " +:+ field_name
                             +:+ ": must be a positive integer"))
          else (true, None)).
Proof.
  intros st.
  destruct (run_updates_ok calls _ (seed_ok boot)) as (_ & _ & Hk). fold st in Hk.
  split; [done|]. split; [|split; [|split; [|split]]].
  - intros c Hn Hd. by destruct c.
  - intros items Hok. cbn. rewrite Hk. by apply validate_entries_all_ok.
  - intros pre k v post Hpre Hbad. cbn. rewrite Hk.
    rewrite validate_entries_skip, validate_entries_step by done.
    by rewrite bool_decide_eq_false_2.
  - intros pre k v post Hpre Hgood Hrej. cbn. rewrite Hk.
    rewrite validate_entries_skip, validate_entries_step, validator_rule by done.
    by rewrite bool_decide_eq_true_2, Hrej.
  - intros v f. apply validator_rule.
Qed.

Lemma C7_witness :
  validate_benefit_categories (Config.MOCK_LOVE_STATS "boot") (PList [])
    = (false, Some "benefit_categories must be a dictionary") ∧
  validate_benefit_categories (Config.MOCK_LOVE_STATS "boot")
      (PDict [("allpass", PInt 1); ("new_resident", PNone)]) = (true, None) ∧
  validate_benefit_categories (Config.MOCK_LOVE_STATS "boot")
      (PDict ([("allpass", PInt 1)] ++ ("unknown_key", PInt 5) :: [("allpass", PInt (-1))]))
    = (false, Some "Unknown benefit category: unknown_key") ∧
  validate_benefit_categories (Config.MOCK_LOVE_STATS "boot")
      (PDict ([("allpass", PInt 1)] ++ ("new_resident", PFloat 0) :: [("zzz", PInt 0)]))
    = (false, Some "Invalid value for new_resident: must be a positive integer").
Proof.
  destruct (C7_validate_benefit_categories "boot" []) as (_ & Hnd & Hok & Hunk & Hinv & _).
  assert (Hin : ∀ k, bool_decide (k ∈ ALLOWED_KEYS) = true → k ∈ ALLOWED_KEYS)
    by (intros k; apply bool_decide_eq_true_1).
  assert (H1 : Forall (entry_ok ALLOWED_KEYS) [("allpass", PInt 1)]).
  { constructor; [split|constructor]; [apply Hin; vm_compute|]; reflexivity. }
  split; [|split; [|split]].
  - apply Hnd; reflexivity.
  - apply Hok. constructor; [exact (Forall_inv H1)|].
    constructor; [split|constructor]; [apply Hin; vm_compute|]; reflexivity.
  - apply Hunk; [exact H1|]. apply (bool_decide_eq_false_1 ("unknown_key" ∈ ALLOWED_KEYS)). vm_compute. reflexivity.
  - destruct (Hinv [("allpass", PInt 1)] "new_resident" (PFloat 0) [("zzz", PInt 0)])
      as [H _]; [exact H1| |reflexivity|exact H].
    apply Hin. vm_compute. reflexivity.
Defined.

(** ** C10: booleans and zero pass the integer rule *)




(** * Properties of the rate limiter *)

Section RateLimiterFacts.

Import RateLimiter.
Implicit Types (self : RateLimiter.t) (ip : string) (now : Q).

Lemma Qltb_lt (x y : Q) : Qltb x y = true ↔ (x < y)%Q.
Proof.
  unfold Qltb. rewrite Qlt_alt. destruct (x ?= y)%Q; split; congruence.
Qed.

Lemma cutoff_lt_window : (WINDOW_CUTOFF < 60)%Q.
Proof. reflexivity. Qed.

Lemma cutoff_pos : (0 < WINDOW_CUTOFF)%Q.
Proof. reflexivity. Qed.

Lemma in_window_spec now t : in_window now t = true ↔ (now - t < WINDOW_CUTOFF)%Q.
Proof. unfold in_window. by rewrite Qltb_lt. Qed.

(** What the test keeps is less than 60 seconds old. *)
Lemma in_window_young now t : in_window now t = true → (now - t < 60)%Q.
Proof. intros H%in_window_spec. pose proof cutoff_lt_window. lra. Qed.

Lemma in_window_self now : in_window now now = true.
Proof. apply in_window_spec. pose proof cutoff_pos. lra. Qed.

(** The three steps of [is_allowed], read off the window of each identifier. *)
Lemma is_allowed_unfold now ip self :
  let kept := List.filter (in_window now) (window self ip) in
  (is_allowed now ip self).1 = negb (Config.RATE_LIMIT_MAX <=? length kept)%nat ∧
  window (is_allowed now ip self).2 ip =
    (if (Config.RATE_LIMIT_MAX <=? length kept)%nat then kept else (kept ++ [now])%list) ∧
  (∀ ip', ip' ≠ ip → window (is_allowed now ip self).2 ip' = window self ip').
Proof.
  intros kept. unfold is_allowed, window in *.
  set (counts0 := request_counts self) in *.
  set (counts1 := if bool_decide (ip ∈ dom counts0) then counts0 else <[ip := []]> counts0).
  assert (Hsame : counts1 !!! ip = counts0 !!! ip).
  { unfold counts1. destruct (bool_decide_reflect (ip ∈ dom counts0)) as [|Hout]; [done|].
    rewrite lookup_total_insert_eq, lookup_total_alt.
    by rewrite (not_elem_of_dom_1 _ _ Hout). }
  assert (Hother : ∀ ip', ip' ≠ ip → counts1 !!! ip' = counts0 !!! ip').
  { intros ip' Hne. unfold counts1. destruct (bool_decide (ip ∈ dom counts0)); [done|].
    by rewrite lookup_total_insert_ne. }
  cbv zeta. rewrite !lookup_total_insert_eq, Hsame. fold kept.
  destruct (Config.RATE_LIMIT_MAX <=? length kept)%nat; cbn.
  - split; [done|]. split; [by rewrite lookup_total_insert_eq|].
    intros ip' Hne. by rewrite lookup_total_insert_ne, Hother.
  - split; [done|]. split; [by rewrite lookup_total_insert_eq|].
    intros ip' Hne. by rewrite !lookup_total_insert_ne, Hother.
Qed.

Lemma filter_in_window now l t :
  t ∈ List.filter (in_window now) l ↔ t ∈ l ∧ (now - t < WINDOW_CUTOFF)%Q.
Proof. by rewrite !list_elem_of_In, filter_In, in_window_spec. Qed.

Lemma filter_stale a now l :
  in_span a now → Forall (stale a) l → List.filter (in_window now) l = [].
Proof.
  intros [Ha _]. induction 1 as [|old l Hold _ IH]; [done|].
  cbn. rewrite IH. destruct (in_window now old) eqn:Hin; [|done].
  apply in_window_young in Hin. unfold stale in Hold. lra.
Qed.

Lemma filter_span a now l :
  in_span a now → Forall (in_span a) l → List.filter (in_window now) l = l.
Proof.
  intros [_ Hb]. induction 1 as [|t l [Ht _] _ IH]; [done|].
  cbn. rewrite IH. destruct (in_window now t) eqn:Hin; [done|].
  assert (Hlt : (now - t < WINDOW_CUTOFF)%Q) by lra.
  apply in_window_spec in Hlt. congruence.
Qed.

Lemma is_allowed_bounded now ip self ip' :
  (length (window self ip') ≤ Config.RATE_LIMIT_MAX)%nat →
  (length (window (is_allowed now ip self).2 ip') ≤ Config.RATE_LIMIT_MAX)%nat.
Proof.
  intros Hlen. destruct (is_allowed_unfold now ip self) as (_ & Hip & Hother).
  destruct (decide (ip' = ip)) as [->|Hne]; [|by rewrite Hother].
  rewrite Hip. destruct (Nat.leb_spec Config.RATE_LIMIT_MAX
                           (length (List.filter (in_window now) (window self ip)))) as [Hge|Hlt].
  - pose proof (filter_length_le (in_window now) (window self ip)). lia.
  - rewrite length_app. cbn. lia.
Qed.

Lemma run_requests_cons ip now rest self :
  run_requests ((ip, now) :: rest) self =
    ((is_allowed now ip self).1 :: (run_requests rest (is_allowed now ip self).2).1,
     (run_requests rest (is_allowed now ip self).2).2).
Proof.
  cbn [run_requests]. destruct (is_allowed now ip self) as [ok self'].
  cbn [fst snd]. by destruct (run_requests rest self').
Qed.

Lemma run_requests_bounded calls self :
  (∀ ip, (length (window self ip) ≤ Config.RATE_LIMIT_MAX)%nat) →
  ∀ ip, (length (window (run_requests calls self).2 ip) ≤ Config.RATE_LIMIT_MAX)%nat.
Proof.
  revert self. induction calls as [|[ip0 now] rest IH]; intros self Hself; [done|].
  intros ip. rewrite run_requests_cons. cbn [snd]. apply IH.
  intros ip'. by apply is_allowed_bounded.
Qed.

Lemma times_of_cons_same ip now rest :
  times_of ip ((ip, now) :: rest) = now :: times_of ip rest.
Proof. unfold times_of. cbn. by rewrite String.eqb_refl. Qed.

Lemma times_of_cons_other ip ip0 now rest :
  ip0 ≠ ip → times_of ip ((ip0, now) :: rest) = times_of ip rest.
Proof.
  intros Hne. unfold times_of. cbn.
  by destruct (String.eqb_spec ip0 ip).
Qed.

(** Requests of [ip] that all fall in one 60-second span, served from a
    state whose window for [ip] is [old ++ seen] with [old] stale and
    [seen] in the span: as long as [seen] and the new requests number at
    most the maximum, each request of [ip] is admitted and recorded. *)
Lemma run_requests_span ip a calls :
  ∀ self old seen,
    window self ip = (old ++ seen)%list →
    Forall (stale a) old →
    Forall (in_span a) (seen ++ times_of ip calls) →
    (length (seen ++ times_of ip calls) ≤ Config.RATE_LIMIT_MAX)%nat →
    (∀ i c, calls !! i = Some c → c.1 = ip →
            (run_requests calls self).1 !! i = Some true) ∧
    ∃ old', window (run_requests calls self).2 ip
              = (old' ++ seen ++ times_of ip calls)%list ∧
            Forall (stale a) old'.
Proof.
  induction calls as [|[ip0 now] rest IH]; intros self old seen Hwin Hold Hspan Hlen.
  { split; [by intros i c [=]|]. exists old. cbn. by rewrite app_nil_r. }
  rewrite run_requests_cons. cbn [fst snd].
  destruct (is_allowed_unfold now ip0 self) as (Hres & Hsame & Hother).
  destruct (decide (ip0 = ip)) as [->|Hne].
  - rewrite times_of_cons_same in Hspan, Hlen |- *.
    assert (Hnow : in_span a now).
    { apply Forall_app in Hspan as [_ Hspan]. by apply Forall_cons in Hspan as [? _]. }
    assert (Hseen : Forall (in_span a) seen) by (by apply Forall_app in Hspan as [? _]).
    assert (Hkept : List.filter (in_window now) (window self ip) = seen).
    { rewrite Hwin, List.filter_app, (filter_stale a), (filter_span a); done. }
    rewrite Hkept in Hres, Hsame.
    assert (Hroom : (Config.RATE_LIMIT_MAX <=? length seen)%nat = false).
    { apply Nat.leb_gt. rewrite length_app in Hlen. cbn in Hlen. lia. }
    rewrite Hroom in Hres, Hsame. cbn in Hres.
    destruct (IH (is_allowed now ip self).2 [] (seen ++ [now])%list) as [Hoks Hfinal].
    + done.
    + constructor.
    + by rewrite <- app_assoc.
    + by rewrite <- app_assoc.
    + split.
      * intros [|i] c Hc Hip; [by rewrite Hres|]. cbn. by apply (Hoks i c).
      * destruct Hfinal as (old' & Hw & Hst). exists old'.
        split; [|done]. by rewrite Hw, <- app_assoc.
  - rewrite times_of_cons_other in Hspan, Hlen |- * by done.
    destruct (IH (is_allowed now ip0 self).2 old seen) as [Hoks Hfinal]; try done.
    { rewrite Hother; done. }
    split; [|done].
    intros [|i] c Hc Hip; [|by apply (Hoks i c)].
    cbn in Hc. injection Hc as <-. by cbn in Hip.
Qed.

Lemma filter_stale_from a now l :
  (a <= now)%Q → Forall (stale a) l → List.filter (in_window now) l = [].
Proof.
  intros Ha. induction 1 as [|old l Hold _ IH]; [done|].
  cbn. rewrite IH. destruct (in_window now old) eqn:Hin; [|done].
  apply in_window_young in Hin. unfold stale in Hold. lra.
Qed.

(** Requests of [ip] made at or after [a], served from a state whose window
    for [ip] is [old ++ seen] with [old] stale: as long as [seen] and the
    new requests number at most the maximum, each request of [ip] is
    admitted, wherever in the window the rounding of the test falls. *)
Lemma run_requests_admits ip a calls :
  ∀ self old seen,
    window self ip = (old ++ seen)%list →
    Forall (stale a) old →
    Forall (λ t, (a <= t)%Q) (times_of ip calls) →
    (length seen + length (times_of ip calls) ≤ Config.RATE_LIMIT_MAX)%nat →
    ∀ i c, calls !! i = Some c → c.1 = ip →
           (run_requests calls self).1 !! i = Some true.
Proof.
  induction calls as [|[ip0 now] rest IH]; intros self old seen Hwin Hold Hfrom Hlen.
  { by intros i c [=]. }
  rewrite run_requests_cons. cbn [fst snd].
  destruct (is_allowed_unfold now ip0 self) as (Hres & Hsame & Hother).
  destruct (decide (ip0 = ip)) as [->|Hne].
  - rewrite times_of_cons_same in Hfrom, Hlen.
    apply Forall_cons in Hfrom as [Hnow Hfrom]. cbn [length] in Hlen.
    assert (Hkept : List.filter (in_window now) (window self ip)
                    = List.filter (in_window now) seen).
    { by rewrite Hwin, List.filter_app, (filter_stale_from a). }
    rewrite Hkept in Hres, Hsame.
    pose proof (filter_length_le (in_window now) seen) as Hle.
    assert (Hroom : (Config.RATE_LIMIT_MAX <=? length (List.filter (in_window now) seen))%nat
                    = false) by (apply Nat.leb_gt; lia).
    rewrite Hroom in Hres, Hsame. cbn in Hres.
    intros [|i] c Hc Hip; [by rewrite Hres|]. cbn.
    apply (IH (is_allowed now ip self).2 [] (List.filter (in_window now) seen ++ [now])%list)
      with (c := c); try done.
    rewrite length_app. cbn. lia.
  - rewrite times_of_cons_other in Hfrom, Hlen by done.
    intros [|i] c Hc Hip.
    + cbn in Hc. injection Hc as <-. by cbn in Hip.
    + cbn. apply (IH (is_allowed now ip0 self).2 old seen) with (c := c); try done.
      by rewrite Hother.
Qed.

Lemma in_span_minute a t : in_span a t → in_minute a t.
Proof. intros [Ha Hb]. pose proof cutoff_lt_window. split; lra. Qed.

Lemma in_spanb_Forall a l : forallb (in_spanb a) l = true → Forall (in_span a) l.
Proof.
  intros Hall. apply Forall_forall. intros t Ht%list_elem_of_In.
  apply (proj1 (forallb_forall _ _) Hall) in Ht.
  apply andb_prop in Ht as [Hle Hlt]. split; [by apply Qle_bool_iff|by apply Qltb_lt].
Qed.

End RateLimiterFacts.

(** ** C4: nothing stale is left when a check completes *)

(** C4. For every identifier, limiter state and clock reading, when the
    is_allowed check returns, every timestamp in that identifier's window
    is less than 60 seconds old; in particular none is older than
    (now - 60). *)
Theorem C4_window_fresh_after_check now ip self :
  Forall (λ t, (now - t < 60)%Q ∧ ¬ (t < now - 60)%Q)
         (window (RateLimiter.is_allowed now ip self).2 ip).
Proof.
  destruct (is_allowed_unfold now ip self) as (_ & -> & _).
  assert (Hkept : Forall (λ t, (now - t < 60)%Q ∧ ¬ (t < now - 60)%Q)
                    (List.filter (RateLimiter.in_window now) (window self ip))).
  { apply Forall_forall. intros t [_ Ht]%filter_in_window.
    pose proof cutoff_lt_window. split; lra. }
  destruct (_ <=? _)%nat; [done|].
  apply Forall_app. split; [done|]. constructor; [|done]. split; lra.
Qed.

(** ** C8: a window never holds more than the maximum *)

(** C8. In every state reached from a new limiter by any sequence of
    is_allowed calls, every identifier's window holds at most 100
    timestamps; and a call that is rejected records nothing: the window it
    leaves is the purged window, to which only an admitted call appends
    its timestamp. *)
Theorem C8_window_bounded :
  (∀ calls ip,
     (length (window (run_requests calls RateLimiter.init).2 ip)
      ≤ Config.RATE_LIMIT_MAX)%nat) ∧
  (∀ now ip self,
     window (RateLimiter.is_allowed now ip self).2 ip =
       if (RateLimiter.is_allowed now ip self).1
       then (List.filter (RateLimiter.in_window now) (window self ip) ++ [now])%list
       else List.filter (RateLimiter.in_window now) (window self ip)).
Proof.
  split.
  - intros calls. apply run_requests_bounded. intros ip.
    unfold window, RateLimiter.init. cbn. rewrite lookup_total_empty. cbn. lia.
  - intros now ip self. destruct (is_allowed_unfold now ip self) as (-> & -> & _).
    by destruct (_ <=? _)%nat.
Qed.

(** ** C2: the sliding window *)

(** C2. Every call of is_allowed first purges from the identifier's window
    the timestamps whose age, as the binary64 subtraction gives it, is not
    below 60: every timestamp 60 seconds old or older goes, and so does
    one that falls short of 60 seconds by 2^-48 s or less; exactly those
    whose exact age is below 60 - 2^-48 stay.  When 100 or more remain the
    call returns False and records nothing, otherwise it appends the
    current timestamp and returns True; the windows of the other
    identifiers are not touched.  Consequently, when an identifier whose
    recorded timestamps are all out of date makes at most 100 requests
    inside 60 seconds [a, a + 60), interleaved in any way with requests of
    other identifiers, each of its requests is admitted; and when it has
    made 100 inside one span [a, a + 60 - 2^-48), one more inside that
    span is rejected. *)
Theorem C2_sliding_window :
  (∀ now ip self,
     let kept := List.filter (RateLimiter.in_window now) (window self ip) in
     (∀ t, t ∈ kept ↔ t ∈ window self ip ∧ (now - t < RateLimiter.WINDOW_CUTOFF)%Q) ∧
     (∀ t, t ∈ window self ip → (60 <= now - t)%Q → t ∉ kept) ∧
     (∀ t, t ∈ kept → (now - t < 60)%Q) ∧
     RateLimiter.is_allowed now ip self =
       (if (100 <=? length kept)%nat then false else true,
        (RateLimiter.is_allowed now ip self).2) ∧
     window (RateLimiter.is_allowed now ip self).2 ip =
       (if (100 <=? length kept)%nat then kept else (kept ++ [now])%list) ∧
     (∀ ip', ip' ≠ ip →
        window (RateLimiter.is_allowed now ip self).2 ip' = window self ip')) ∧
  (∀ ip a calls self,
     Forall (stale a) (window self ip) →
     Forall (in_minute a) (times_of ip calls) →
     (length (times_of ip calls) ≤ 100)%nat →
     ∀ i c, calls !! i = Some c → c.1 = ip →
            (run_requests calls self).1 !! i = Some true) ∧
  (∀ ip a calls self now,
     Forall (stale a) (window self ip) →
     Forall (in_span a) (times_of ip calls) →
     length (times_of ip calls) = 100%nat →
     in_span a now →
     (RateLimiter.is_allowed now ip (run_requests calls self).2).1 = false).
Proof.
  split; [|split].
  - intros now ip self kept.
    destruct (is_allowed_unfold now ip self) as (Hres & Hsame & Hother).
    fold kept in Hres, Hsame.
    split; [intros t; apply filter_in_window|].
    split.
    { intros t _ Hold [_ Hyoung]%filter_in_window.
      pose proof cutoff_lt_window. lra. }
    split.
    { intros t [_ Hyoung]%filter_in_window. pose proof cutoff_lt_window. lra. }
    split; [|done].
    rewrite (surjective_pairing (RateLimiter.is_allowed now ip self)) at 1.
    rewrite Hres. by destruct (_ <=? _)%nat.
  - intros ip a calls self Hold Hspan Hlen.
    apply (run_requests_admits ip a calls self (window self ip) []).
    + by rewrite app_nil_r.
    + done.
    + eapply Forall_impl; [exact Hspan|]. by intros t [Ht _].
    + done.
  - intros ip a calls self now Hold Hspan Hlen Hnow.
    destruct (run_requests_span ip a calls self (window self ip) [])
      as [_ (old' & Hw & Hst)].
    + by rewrite app_nil_r.
    + done.
    + done.
    + cbn. rewrite Hlen. done.
    + destruct (is_allowed_unfold now ip (run_requests calls self).2) as (-> & _).
      cbn in Hw. rewrite Hw, List.filter_app, (filter_stale a), (filter_span a) by done.
      cbn. by rewrite Hlen.
Qed.

Lemma C2_witness :
  (0%Q ∉ List.filter (RateLimiter.in_window 61)
           (window (RateLimiter.mk {[ "203.0.113.7" := [0%Q] ]}) "203.0.113.7")) ∧
  (run_requests busy_minute RateLimiter.init).1 !! 198%nat = Some true ∧
  (RateLimiter.is_allowed 59 "203.0.113.7"
     (run_requests busy_minute RateLimiter.init).2).1 = false.
Proof.
  destruct C2_sliding_window as (Hstep & Hadmit & Hreject).
  split; [|split].
  - destruct (Hstep 61%Q "203.0.113.7" (RateLimiter.mk {[ "203.0.113.7" := [0%Q] ]}))
      as (_ & Hpurge & _).
    apply Hpurge.
    + vm_compute. left.
    + vm_compute. discriminate.
  - apply (Hadmit "203.0.113.7" 0%Q busy_minute RateLimiter.init)
      with (c := ("203.0.113.7", 99 # 2)).
    + vm_compute. constructor.
    + eapply Forall_impl; [|apply in_span_minute].
      apply in_spanb_Forall. vm_compute. reflexivity.
    + vm_compute. apply Nat.leb_le. reflexivity.
    + vm_compute. reflexivity.
    + reflexivity.
  - apply (Hreject "203.0.113.7" 0%Q busy_minute RateLimiter.init).
    + vm_compute. constructor.
    + apply in_spanb_Forall. vm_compute. reflexivity.
    + vm_compute. reflexivity.
    + split; [vm_compute; discriminate|vm_compute; reflexivity].
Defined.

(** The 101st request inside a 60-second window is not always rejected.
    One hundred requests at second 2^-60 are admitted; the next one, at
    second 60, is less than 60 seconds later, yet the float subtraction
    [60.0 - 2**-60] gives 60.0, the hundred timestamps are purged and the
    request is admitted. *)
Lemma C2_counterexample :
  let calls := replicate 100 ("203.0.113.7", 1 # 2 ^ 60)%Q in
  let served := run_requests calls RateLimiter.init in
  (60 - (1 # 2 ^ 60) < 60)%Q ∧
  Forall (in_minute (1 # 2 ^ 60)) (60%Q :: times_of "203.0.113.7" calls) ∧
  served.1 = replicate 100 true ∧
  (RateLimiter.is_allowed 60 "203.0.113.7" served.2).1 = true ∧
  window (RateLimiter.is_allowed 60 "203.0.113.7" served.2).2 "203.0.113.7" = [60%Q].
Proof.
  intros calls served.
  split; [reflexivity|].
  split.
  { assert (Ht : times_of "203.0.113.7" calls = replicate 100 (1 # 2 ^ 60)%Q)
      by (vm_compute; reflexivity).
    rewrite Ht. constructor.
    - split; [vm_compute; discriminate|reflexivity].
    - apply Forall_replicate. split; [vm_compute; discriminate|reflexivity]. }
  split; [vm_compute; reflexivity|].
  split; vm_compute; reflexivity.
Qed.

(** * Properties of get_current_stats *)

Section Snapshot.

Import Store.
Implicit Types (h : gmap loc (gmap string entry)) (st : StatsRecord).

Lemma omap_entry_value_fmap (bc : gmap string pyvalue) :
  omap entry_value (EVal <$> bc) = bc.
Proof.
  apply map_eq. intros k. rewrite lookup_omap, lookup_fmap.
  by destruct (bc !! k).
Qed.

(** Reading the record succeeds exactly when the two dicts are laid out
    as the service expects. *)
Lemma stats_of_Some h st :
  stats_of h = Some st ↔
  ∃ top l bc,
    h !! MOCK_LOVE_STATS = Some top ∧
    top !! "donation" = Some (EVal (donation st)) ∧
    top !! "benefit_categories" = Some (ERef l) ∧
    h !! l = Some bc ∧
    top !! "last_updated" = Some (EVal (PStr (last_updated st))) ∧
    omap entry_value bc = benefit_categories st.
Proof.
  unfold stats_of. split.
  - destruct (h !! MOCK_LOVE_STATS) as [top|] eqn:Htop; [cbn|done].
    destruct (top !! "donation") as [[d|]|] eqn:Hd; try done. cbn.
    destruct (top !! "benefit_categories") as [[|l]|] eqn:Hl; try done. cbn.
    destruct (h !! l) as [bc|] eqn:Hbc; [cbn|done].
    destruct (top !! "last_updated") as [[[]|]|] eqn:Hlu; try done. cbn.
    intros [= <-]. exists top, l, bc. by rewrite Hbc.
  - intros (top & l & bc & -> & Hd & Hl & Hbc & Hlu & Hcat). cbn.
    rewrite Hd, Hl. cbn. rewrite Hbc, Hlu. cbn. rewrite Hcat. by destruct st.
Qed.

Lemma stats_of_store_of st : stats_of (store_of st) = Some st.
Proof.
  apply stats_of_Some.
  exists {[ "donation" := EVal (donation st);
            "benefit_categories" := ERef 1%nat;
            "last_updated" := EVal (PStr (last_updated st)) ]},
         1%nat, (EVal <$> benefit_categories st).
  unfold store_of, MOCK_LOVE_STATS.
  split; [by rewrite lookup_insert_eq|].
  split; [by rewrite lookup_insert_eq|].
  split; [by rewrite lookup_insert_ne, lookup_insert_eq|].
  split; [by rewrite lookup_insert_ne, lookup_singleton_eq|].
  split; [by rewrite !lookup_insert_ne, lookup_singleton_eq|].
  apply omap_entry_value_fmap.
Qed.

(** An object allocated at an unused identity is invisible to the reading
    of the record. *)
Lemma stats_of_insert_fresh r o h st :
  r ∉ dom h → stats_of h = Some st → stats_of (<[r := o]> h) = Some st.
Proof.
  intros Hr (top & l & bc & Htop & Hd & Hl & Hbc & Hlu & Hcat)%stats_of_Some.
  apply stats_of_Some. exists top, l, bc.
  assert (r ≠ MOCK_LOVE_STATS) by (intros ->; apply Hr, elem_of_dom; eauto).
  assert (r ≠ l) by (intros ->; apply Hr, elem_of_dom; eauto).
  by rewrite !lookup_insert_ne.
Qed.

Lemma get_current_stats_Some now h st :
  stats_of h = Some st →
  ∃ top, h !! MOCK_LOVE_STATS = Some top ∧
    get_current_stats now h =
      Some (fresh (dom h),
            <[fresh (dom h) := <["updatedAt" := EVal (PStr (last_updated st))]> top]> h).
Proof.
  intros (top & l & bc & Htop & Hd & Hl & Hbc & Hlu & Hcat)%stats_of_Some.
  exists top. split; [done|].
  unfold get_current_stats, dict_copy, getitem, setitem. rewrite Htop.
  rewrite !lookup_insert_eq, Hlu. by rewrite insert_insert_eq.
Qed.

Lemma mutate_top_level r o h m h2 :
  top_level m = true → mutate r m (<[r := o]> h) = Some h2 →
  ∃ o', h2 = <[r := o']> h.
Proof.
  destruct m as [key v|key|field key v]; [| |done]; intros _; cbn;
    unfold setitem, delitem; rewrite lookup_insert_eq.
  - intros [= <-]. eexists. by rewrite insert_insert_eq.
  - destruct (bool_decide (key ∈ dom o)); [|done].
    intros [= <-]. eexists. by rewrite insert_insert_eq.
Qed.

End Snapshot.

(** ** C5: the snapshot is a copy of the top-level dict only *)

(** C5. get_current_stats always succeeds on the stored
    record and does not change it.  It returns a new dict, distinct from
    the stored one, with the stored donation and last_updated and with
    updatedAt equal to last_updated; setting or deleting top-level entries
    of that dict does not change the stored record.  The dict's
    benefit_categories entry is the very reference held by the stored
    record: the nested mapping is shared, not copied. *)
Theorem C5_snapshot_is_shallow now h st :
  stats_of h = Some st →
  ∃ r h1,
    Store.get_current_stats now h = Some (r, h1) ∧
    r ≠ Store.MOCK_LOVE_STATS ∧ (r ∉ dom h) ∧
    stats_of h1 = Some st ∧
    Store.getitem r "donation" h1 = Some (EVal (donation st)) ∧
    Store.getitem r "last_updated" h1 = Some (EVal (PStr (last_updated st))) ∧
    Store.getitem r "updatedAt" h1 = Some (EVal (PStr (last_updated st))) ∧
    (∃ l, Store.getitem r "benefit_categories" h1 = Some (ERef l) ∧
          Store.getitem Store.MOCK_LOVE_STATS "benefit_categories" h1 = Some (ERef l)) ∧
    (∀ m h2, top_level m = true → mutate r m h1 = Some h2 → stats_of h2 = Some st).
Proof.
  intros Hst. destruct (get_current_stats_Some now h st Hst) as (top0 & Htop0 & Hget).
  pose proof Hst as (top & l & bc & Htop & Hd & Hl & Hbc & Hlu & Hcat)%stats_of_Some.
  assert (top0 = top) as -> by congruence. clear Htop0.
  set (r := fresh (dom h)) in *.
  assert (Hfresh : r ∉ dom h) by apply is_fresh.
  assert (Hne : r ≠ Store.MOCK_LOVE_STATS)
    by (intros E; apply Hfresh; rewrite E; apply elem_of_dom; eauto).
  eexists r, _. split; [exact Hget|].
  split; [done|]. split; [done|].
  split; [by apply stats_of_insert_fresh|].
  unfold Store.getitem. rewrite lookup_insert_eq.
  split; [by rewrite lookup_insert_ne|].
  split; [by rewrite lookup_insert_ne|].
  split; [by rewrite lookup_insert_eq|].
  split.
  - exists l. split; [by rewrite lookup_insert_ne|].
    by rewrite lookup_insert_ne, Htop.
  - intros m h2 Hm Hmut.
    destruct (mutate_top_level _ _ _ _ _ Hm Hmut) as [o' ->].
    by apply stats_of_insert_fresh.
Qed.

Lemma C5_witness :
  ∃ r h1,
    Store.get_current_stats "now" (store_of (Config.MOCK_LOVE_STATS "boot")) = Some (r, h1) ∧
    r ≠ Store.MOCK_LOVE_STATS ∧ (r ∉ dom (store_of (Config.MOCK_LOVE_STATS "boot"))) ∧
    stats_of h1 = Some (Config.MOCK_LOVE_STATS "boot") ∧
    Store.getitem r "donation" h1 = Some (EVal (PInt 714649)) ∧
    Store.getitem r "last_updated" h1 = Some (EVal (PStr "boot")) ∧
    Store.getitem r "updatedAt" h1 = Some (EVal (PStr "boot")) ∧
    (∃ l, Store.getitem r "benefit_categories" h1 = Some (ERef l) ∧
          Store.getitem Store.MOCK_LOVE_STATS "benefit_categories" h1 = Some (ERef l)) ∧
    (∀ m h2, top_level m = true → mutate r m h1 = Some h2 →
             stats_of h2 = Some (Config.MOCK_LOVE_STATS "boot")).
Proof.
  apply (C5_snapshot_is_shallow "now" (store_of (Config.MOCK_LOVE_STATS "boot"))
           (Config.MOCK_LOVE_STATS "boot")).
  apply stats_of_store_of.
Defined.

(** The copy does not reach the nested mapping: writing through the
    benefit_categories entry of the returned dict changes the stored
    record.  After
    [r = get_current_stats(); r["benefit_categories"]["allpass"] = 0]
    the stored record reads 0 under allpass, where the seed has 78807. *)
Lemma C5_counterexample :
  let h := store_of (Config.MOCK_LOVE_STATS "boot") in
  match Store.get_current_stats "now" h with
  | Some (r, h1) =>
      match mutate r (SetNested "benefit_categories" "allpass" (PInt 0)) h1 with
      | Some h2 =>
          (stats_of h ≫= λ st, benefit_categories st !! "allpass") = Some (PInt 78807) ∧
          (stats_of h2 ≫= λ st, benefit_categories st !! "allpass") = Some (PInt 0) ∧
          stats_of h2 ≠ stats_of h
      | None => False
      end
  | None => False
  end.
Proof.
  vm_compute. split; [reflexivity|]. split; [reflexivity|].
  intros E.
  apply (f_equal (λ o, o ≫= λ st, benefit_categories st !! "allpass")) in E.
  vm_compute in E. discriminate E.
Qed.

(** * Further properties of update_stats *)

Section UpdateStatsMore.

Implicit Types (st : StatsRecord) (items : list (string * pyvalue)).

Lemma apply_categories_last items (bc : gmap string pyvalue) k :
  apply_categories items bc !! k =
    match last_value items k with
    | Some v => Some v
    | None => bc !! k
    end.
Proof.
  revert bc. induction items as [|[k0 v0] rest IH]; intros bc; [done|].
  rewrite apply_categories_cons, IH. cbn [last_value].
  destruct (last_value rest k); [done|].
  destruct (String.eqb_spec k0 k) as [->|Hne]; cbn.
  - destruct (is_none v0); cbn; [done|]. by rewrite lookup_insert_eq.
  - destruct (is_none v0); [done|]. by rewrite lookup_insert_ne.
Qed.

Lemma apply_categories_idem items (bc : gmap string pyvalue) :
  apply_categories items (apply_categories items bc) = apply_categories items bc.
Proof.
  apply map_eq. intros k. rewrite !apply_categories_last.
  by destruct (last_value items k).
Qed.

Lemma apply_categories_app items1 items2 (bc : gmap string pyvalue) :
  apply_categories (items1 ++ items2) bc
  = apply_categories items2 (apply_categories items1 bc).
Proof. unfold apply_categories. apply foldl_app. Qed.

(** The validators look at the stored record only through its key set. *)
Lemma validate_categories_dom st st' c :
  dom (benefit_categories st) = dom (benefit_categories st') →
  validate_benefit_categories st c = validate_benefit_categories st' c.
Proof. intros Hdom. destruct c; cbn; try done. by rewrite Hdom. Qed.

Lemma validated_keys_in_dom st c :
  (validate_benefit_categories st c).1 = true →
  Forall (λ kv, kv.1 ∈ dom (benefit_categories st)) (categories_of c).
Proof.
  intros Hc. destruct c; cbn; try constructor.
  eapply Forall_impl; [by apply validate_entries_ok|]. by intros kv [? _].
Qed.

Lemma updated_dom now d st c :
  (validate_benefit_categories st c).1 = true →
  dom (benefit_categories (updated now d (categories_of c) st))
  = dom (benefit_categories st).
Proof. intros Hc. cbn. by apply apply_categories_dom, validated_keys_in_dom. Qed.

(** A successful update comes from a mapping payload whose two fields
    passed validation and which the log line could format. *)
Lemma update_stats_success_inv now data st st' msg :
  update_stats now data st = (Return (true, msg), st') →
  ∃ items, data = PDict items ∧
    (validate_positive_integer (dict_get items "donation") "donation").1 = true ∧
    (validate_benefit_categories st (dict_get items "benefit_categories")).1 = true ∧
    str_raises data = false ∧
    msg = None ∧
    st' = updated now (dict_get items "donation")
            (categories_of (dict_get items "benefit_categories")) st.
Proof.
  destruct (isinstance_dict data) eqn:Hdata.
  2:{ rewrite update_stats_not_dict by done. intros [=]. }
  destruct data as [| | | | | |items]; try discriminate. clear Hdata.
  rewrite update_stats_dict. cbv zeta.
  destruct (validate_positive_integer _ "donation") as [[] m1] eqn:H1; [|intros [=]].
  destruct (validate_benefit_categories st _) as [[] m2] eqn:H2; [|intros [=]].
  destruct (str_raises (PDict items)) eqn:Hs; [intros [=]|].
  intros [= <- <-]. exists items. rewrite H1, H2. by repeat split.
Qed.




End UpdateStatsMore.

Lemma update_stats_answer_dom now now' data (st st' : StatsRecord) :
  dom (benefit_categories st) = dom (benefit_categories st') →
  (update_stats now data st).1 = (update_stats now' data st').1.
Proof.
  intros Hdom. destruct (isinstance_dict data) eqn:Hdata.
  2:{ by rewrite !update_stats_not_dict. }
  destruct data as [| | | | | |items]; try discriminate. clear Hdata.
  rewrite !update_stats_dict. cbv zeta.
  rewrite (validate_categories_dom st st') by done.
  destruct (validate_positive_integer _ "donation") as [[] m1]; [|done].
  by destruct (validate_benefit_categories st' _) as [[] m2].
Qed.


(** X2. update_stats is idempotent: repeating a successful call with the
    same payload and the same clock reading succeeds again and leaves the
    record as the first call left it. *)
Theorem X2_update_stats_idempotent now data st st1 :
  update_stats now data st = (Return (true, None), st1) →
  update_stats now data st1 = (Return (true, None), st1).
Proof.
  intros (items & -> & Hd & Hc & Hs & _ & ->)%update_stats_success_inv.
  set (d := dict_get items "donation") in *.
  set (c := dict_get items "benefit_categories") in *.
  assert (Hc' : (validate_benefit_categories (updated now d (categories_of c) st) c).1 = true).
  { rewrite (validate_categories_dom _ st); [done|]. by apply updated_dom. }
  rewrite update_stats_valid by done. fold d c. f_equal.
  unfold updated at 1. cbn [donation benefit_categories updated].
  rewrite apply_categories_idem. unfold updated. f_equal.
  by destruct (is_none d).
Qed.

Lemma X2_witness :
  update_stats "now" (PDict example_payload)
    (updated "now" (PInt 800000) [("medical_staff", PInt 140000)]
       (Config.MOCK_LOVE_STATS "boot"))
  = (Return (true, None),
     updated "now" (PInt 800000) [("medical_staff", PInt 140000)]
       (Config.MOCK_LOVE_STATS "boot")).
Proof.
  apply (X2_update_stats_idempotent "now" (PDict example_payload)
           (Config.MOCK_LOVE_STATS "boot")).
  vm_compute. reflexivity.
Defined.

(** X3. Two successful updates in a row merge field by field: the donation
    is the second payload's when it gives one, else the first's, else the
    old one; each category holds the last non-null value the second
    payload gives it, else the last non-null value the first gives it,
    else its old value; last_updated is the second clock reading. *)
Theorem X3_successive_updates_merge now1 now2 items1 items2 st st1 st2 :
  update_stats now1 (PDict items1) st = (Return (true, None), st1) →
  update_stats now2 (PDict items2) st1 = (Return (true, None), st2) →
  let d1 := dict_get items1 "donation" in
  let d2 := dict_get items2 "donation" in
  let cats1 := categories_of (dict_get items1 "benefit_categories") in
  let cats2 := categories_of (dict_get items2 "benefit_categories") in
  donation st2 = (if is_none d2 then if is_none d1 then donation st else d1 else d2) ∧
  (∀ k, benefit_categories st2 !! k =
        match last_value cats2 k with
        | Some v => Some v
        | None => match last_value cats1 k with
                  | Some v => Some v
                  | None => benefit_categories st !! k
                  end
        end) ∧
  last_updated st2 = now2.
Proof.
  intros (? & [= <-] & _ & _ & _ & _ & ->)%update_stats_success_inv.
  intros (? & [= <-] & _ & _ & _ & _ & ->)%update_stats_success_inv.
  intros d1 d2 cats1 cats2. split; [done|]. split; [|done].
  intros k. cbn [benefit_categories updated]. fold cats1 cats2.
  by rewrite !apply_categories_last.
Qed.

Lemma X3_witness :
  let st1 := (update_stats "t1" (PDict example_payload) (Config.MOCK_LOVE_STATS "boot")).2 in
  let st2 := (update_stats "t2"
                (PDict [("benefit_categories", PDict [("allpass", PInt 1)])]) st1).2 in
  donation st2 = PInt 800000 ∧
  benefit_categories st2 !! "allpass" = Some (PInt 1) ∧
  benefit_categories st2 !! "medical_staff" = Some (PInt 140000) ∧
  benefit_categories st2 !! "new_resident" = Some (PInt 1674) ∧
  last_updated st2 = "t2".
Proof.
  intros st1 st2.
  assert (H1 : update_stats "t1" (PDict example_payload) (Config.MOCK_LOVE_STATS "boot")
               = (Return (true, None), st1)) by (vm_compute; reflexivity).
  assert (H2 : update_stats "t2"
                 (PDict [("benefit_categories", PDict [("allpass", PInt 1)])]) st1
               = (Return (true, None), st2)) by (vm_compute; reflexivity).
  destruct (X3_successive_updates_merge _ _ _ _ _ _ _ H1 H2) as (Hd & Hk & Ht).
  split; [exact Hd|]. split; [exact (Hk "allpass")|].
  split; [exact (Hk "medical_staff")|]. split; [exact (Hk "new_resident")|exact Ht].
Defined.

(** X4. Whether a payload is accepted, and with which message, never
    depends on the updates made before: in every state reached from the
    seed record update_stats gives the answer it gives on the seed. *)
Theorem X4_answer_independent_of_history boot calls now now' data :
  (update_stats now data (run_updates calls (Config.MOCK_LOVE_STATS boot))).1
  = (update_stats now' data (Config.MOCK_LOVE_STATS boot)).1.
Proof.
  apply update_stats_answer_dom.
  destruct (run_updates_ok calls _ (seed_ok boot)) as (_ & _ & ->).
  by destruct (seed_ok boot) as (_ & _ & ->).
Qed.

(** * Further properties of the rate limiter *)

Section RateLimiterMore.

Import RateLimiter.
Implicit Types (self : RateLimiter.t) (ip : string) (now : Q).

Lemma filter_filter_implied {A} (f g : A → bool) (l : list A) :
  (∀ x, x ∈ l → f x = true → g x = true) →
  List.filter f (List.filter g l) = List.filter f l.
Proof.
  induction l as [|x l IH]; intros Himp; [done|]. cbn.
  assert (Hl : ∀ y, y ∈ l → f y = true → g y = true)
    by (intros y Hy; apply Himp; by right).
  destruct (g x) eqn:Hg; cbn.
  - by rewrite IH.
  - rewrite IH by done. destruct (f x) eqn:Hf; [|done].
    rewrite (Himp x) in Hg; [done|by left|done].
Qed.

Lemma filter_length_implied {A} (f g : A → bool) (l : list A) :
  (∀ x, x ∈ l → f x = true → g x = true) →
  (length (List.filter f l) ≤ length (List.filter g l))%nat.
Proof.
  induction l as [|x l IH]; intros Himp; [done|]. cbn.
  assert (Hl : ∀ y, y ∈ l → f y = true → g y = true)
    by (intros y Hy; apply Himp; by right).
  specialize (IH Hl).
  destruct (f x) eqn:Hf.
  - rewrite (Himp x) by (done || by left). cbn. lia.
  - destruct (g x); cbn; lia.
Qed.

Lemma in_spanb_spec a t : in_spanb a t = true ↔ in_span a t.
Proof.
  unfold in_spanb, in_span. rewrite andb_true_iff, Qle_bool_iff, Qltb_lt. done.
Qed.

(** With a clock that does not go back, purging at [now] what was purged
    at an earlier [lo] is purging at [now]. *)
Lemma filter_in_window_later lo now (seen : list Q) :
  (lo <= now)%Q → Forall (λ t, (t <= lo)%Q) seen →
  List.filter (in_window now) (List.filter (in_window lo) seen)
  = List.filter (in_window now) seen.
Proof.
  intros Hlo Hseen. apply filter_filter_implied.
  intros t Ht Hnow. apply in_window_spec in Hnow. apply in_window_spec. lra.
Qed.

Lemma run_requests_admitted_bound ip calls :
  ∀ self seen lo,
    window self ip = List.filter (in_window lo) seen →
    Forall (λ t, (t <= lo)%Q) seen →
    Forall (λ t, (lo <= t)%Q) (times_of ip calls) →
    StronglySorted Qle (times_of ip calls) →
    (∀ a, (length (List.filter (in_spanb a) seen) ≤ Config.RATE_LIMIT_MAX)%nat) →
    ∀ a, (length (List.filter (in_spanb a)
                    (seen ++ admitted_of ip calls (run_requests calls self).1))
          ≤ Config.RATE_LIMIT_MAX)%nat.
Proof.
  induction calls as [|[ip0 now] rest IH];
    intros self seen lo Hwin Hseen Hlo Hsorted Hbound a.
  { cbn. by rewrite app_nil_r. }
  rewrite run_requests_cons. cbn [fst admitted_of].
  destruct (is_allowed_unfold now ip0 self) as (Hres & Hsame & Hother).
  destruct (String.eqb_spec ip0 ip) as [->|Hne]; cbn [andb].
  2:{ rewrite times_of_cons_other in Hlo, Hsorted by done.
      apply (IH _ seen lo); try done. by rewrite Hother. }
  rewrite times_of_cons_same in Hlo, Hsorted.
  apply Forall_cons in Hlo as [Hnow Hlo].
  apply StronglySorted_inv in Hsorted as [Hsorted Hrest].
  rewrite Hwin, filter_in_window_later in Hres, Hsame by done.
  assert (Hseen' : Forall (λ t, (t <= now)%Q) seen).
  { eapply Forall_impl; [exact Hseen|]. cbn. intros t Ht. lra. }
  destruct (Nat.leb_spec Config.RATE_LIMIT_MAX
              (length (List.filter (in_window now) seen))) as [Hfull|Hroom].
  - rewrite Hres. cbn [negb]. by apply (IH _ seen now).
  - rewrite Hres. cbn [negb].
    replace (seen ++ now :: admitted_of ip rest
                           (run_requests rest (is_allowed now ip self).2).1)%list
      with ((seen ++ [now]) ++ admitted_of ip rest
                           (run_requests rest (is_allowed now ip self).2).1)%list
      by (by rewrite <- app_assoc).
    apply (IH _ (seen ++ [now])%list now); try done.
    + rewrite Hsame, List.filter_app. cbn. by rewrite in_window_self.
    + apply Forall_app. split; [done|]. constructor; [lra|constructor].
    + intros a'. rewrite List.filter_app, length_app. cbn.
      destruct (in_spanb a' now) eqn:Hspan; cbn; [|specialize (Hbound a'); lia].
      apply in_spanb_spec in Hspan as [_ Hend].
      assert (Hle : (length (List.filter (in_spanb a') seen)
                     ≤ length (List.filter (in_window now) seen))%nat).
      { apply filter_length_implied. intros t Ht [Hstart _]%in_spanb_spec.
        apply in_window_spec. lra. }
      lia.
Qed.

Lemma nondecreasing_sorted l : nondecreasing l = true → StronglySorted Qle l.
Proof.
  intros Hl. apply Sorted_StronglySorted; [intros x y z; apply Qle_trans|].
  induction l as [|x l IH]; [constructor|].
  destruct l as [|y l]; [by repeat constructor|].
  cbn [nondecreasing] in Hl. apply andb_prop in Hl as [Hxy Hl].
  constructor; [by apply IH|]. constructor. by apply Qle_bool_iff.
Qed.

(** The model of the float test gives, on each sample, what the primitive
    binary64 subtraction and comparison give. *)
Lemma in_window_binary64_samples : forallb agrees_on binary64_samples = true.
Proof. vm_compute. reflexivity. Qed.

End RateLimiterMore.

(** X5. The limit itself.  When the clock readings of an identifier's
    requests never go back, then from a state in which nothing is recorded
    for the identifier, however its requests are interleaved with those of
    others, no span [a, a + 60 - 2^-48) holds more than 100 of its admitted
    requests.  (The span is as long as the window the float test sees;
    over a full 60 seconds the bound fails, see the counterexample of
    C2.) *)
Theorem X5_at_most_max_admitted_per_span ip calls self a :
  window self ip = [] →
  StronglySorted Qle (times_of ip calls) →
  (length (List.filter (in_spanb a)
             (admitted_of ip calls (run_requests calls self).1)) ≤ 100)%nat.
Proof.
  intros Hempty Hsorted.
  apply (run_requests_admitted_bound ip calls self [] (hd 0%Q (times_of ip calls)));
    try done.
  - destruct (times_of ip calls) as [|t rest]; [constructor|].
    apply StronglySorted_inv in Hsorted as [_ Hrest]. cbn.
    constructor; [lra|done].
  - intros a'. cbn. lia.
Qed.

(** In the crowded run the address makes 103 requests; the first 100 fall
    in the span that starts at second 0 and are admitted, the two that
    follow in that span are refused, the last one is admitted again. *)
Lemma X5_witness :
  length (times_of "203.0.113.7" crowded_run) = 103%nat ∧
  length (List.filter (in_spanb 0) (times_of "203.0.113.7" crowded_run)) = 102%nat ∧
  length (admitted_of "203.0.113.7" crowded_run
            (run_requests crowded_run RateLimiter.init).1) = 101%nat ∧
  length (List.filter (in_spanb 0)
            (admitted_of "203.0.113.7" crowded_run
               (run_requests crowded_run RateLimiter.init).1)) = 100%nat ∧
  (length (List.filter (in_spanb 0)
             (admitted_of "203.0.113.7" crowded_run
                (run_requests crowded_run RateLimiter.init).1)) ≤ 100)%nat.
Proof.
  split; [vm_compute; reflexivity|].
  split; [vm_compute; reflexivity|].
  split; [vm_compute; reflexivity|].
  split; [vm_compute; reflexivity|].
  apply X5_at_most_max_admitted_per_span.
  - vm_compute. reflexivity.
  - apply nondecreasing_sorted. vm_compute. reflexivity.
Defined.

(** X6. Recovery.  Whatever was recorded for an identifier, once every
    recorded timestamp is at least 60 seconds old the next request is
    admitted and the window restarts with that request alone; this covers
    an identifier seen for the first time and one that was blocked. *)
Theorem X6_admitted_once_window_elapsed now ip self :
  Forall (stale now) (window self ip) →
  (RateLimiter.is_allowed now ip self).1 = true ∧
  window (RateLimiter.is_allowed now ip self).2 ip = [now].
Proof.
  intros Hstale.
  destruct (is_allowed_unfold now ip self) as (-> & -> & _).
  pose proof cutoff_pos as Hpos.
  rewrite (filter_stale now now) by (done || split; lra).
  done.
Qed.

Lemma X6_witness :
  (RateLimiter.is_allowed 59 "203.0.113.7" blocked_limiter).1 = false ∧
  (RateLimiter.is_allowed 60 "203.0.113.7" blocked_limiter).1 = true ∧
  window (RateLimiter.is_allowed 60 "203.0.113.7" blocked_limiter).2 "203.0.113.7"
    = [60%Q].
Proof.
  split; [vm_compute; reflexivity|].
  apply (X6_admitted_once_window_elapsed 60 "203.0.113.7" blocked_limiter).
  assert (Hw : window blocked_limiter "203.0.113.7" = replicate 100 0%Q)
    by (vm_compute; reflexivity).
  rewrite Hw. apply Forall_replicate. unfold stale. lra.
Defined.

Section RateLimiterRuns.

Import RateLimiter.
Implicit Types (self : RateLimiter.t) (ip : string) (now : Q).

Lemma is_allowed_same_window now ip self self' :
  window self ip = window self' ip →
  (is_allowed now ip self).1 = (is_allowed now ip self').1 ∧
  window (is_allowed now ip self).2 ip = window (is_allowed now ip self').2 ip.
Proof.
  intros Hw.
  destruct (is_allowed_unfold now ip self) as (-> & -> & _).
  destruct (is_allowed_unfold now ip self') as (-> & -> & _).
  by rewrite Hw.
Qed.

Lemma filter_sublist {A} (f : A → bool) (l : list A) : List.filter f l `sublist_of` l.
Proof.
  induction l as [|x l IH]; cbn; [constructor|].
  destruct (f x); by constructor.
Qed.

End RateLimiterRuns.

(** X7. Identifiers do not interfere.  In any run the answers given to one
    identifier's requests, and the window it is left with, are those it
    would get if the requests of all other identifiers were removed from
    the run. *)
Theorem X7_identifiers_isolated ip calls self :
  answers_of ip calls (run_requests calls self).1
    = (run_requests (requests_of ip calls) self).1 ∧
  window (run_requests calls self).2 ip
    = window (run_requests (requests_of ip calls) self).2 ip.
Proof.
  enough (Hgen : ∀ self', window self ip = window self' ip →
            answers_of ip calls (run_requests calls self).1
              = (run_requests (requests_of ip calls) self').1 ∧
            window (run_requests calls self).2 ip
              = window (run_requests (requests_of ip calls) self').2 ip)
    by (by apply Hgen).
  revert self. induction calls as [|[ip0 now] rest IH]; intros self self' Hw; [done|].
  rewrite run_requests_cons. cbn [fst snd answers_of requests_of List.filter].
  destruct (String.eqb_spec ip0 ip) as [->|Hne].
  - rewrite run_requests_cons. cbn [fst snd].
    destruct (is_allowed_same_window now ip self self' Hw) as [-> Hw'].
    destruct (IH _ _ Hw') as [Hans Hfin]. fold (requests_of ip rest).
    by rewrite Hans, Hfin.
  - apply IH. destruct (is_allowed_unfold now ip0 self) as (_ & _ & Hother).
    by rewrite Hother.
Qed.

(** X8. Identifiers are never evicted.  A call registers its identifier,
    admitted or not, and removes none: after any run the identifiers known
    to the limiter are those known before together with every identifier
    that made a request. *)
Theorem X8_identifiers_only_accumulate calls self :
  dom (RateLimiter.request_counts (run_requests calls self).2)
  = dom (RateLimiter.request_counts self) ∪ list_to_set (calls.*1).
Proof.
  revert self. induction calls as [|[ip now] rest IH]; intros self.
  { cbn. by rewrite union_empty_r_L. }
  rewrite run_requests_cons. cbn [snd]. rewrite IH. cbn [fmap list_fmap fst list_to_set].
  assert (Hstep : dom (RateLimiter.request_counts (RateLimiter.is_allowed now ip self).2)
                  = dom (RateLimiter.request_counts self) ∪ {[ip]}).
  { unfold RateLimiter.is_allowed. cbv zeta.
    destruct (bool_decide_reflect (ip ∈ dom (RateLimiter.request_counts self))) as [Hin|Hout];
      destruct (_ <=? _)%nat; cbn [snd RateLimiter.request_counts];
      rewrite ?dom_insert_L; apply set_eq; intros x;
      rewrite ?elem_of_union, ?elem_of_singleton; tauto. }
  rewrite Hstep. apply set_eq. intros x.
  rewrite ?elem_of_union, ?elem_of_singleton. tauto.
Qed.

(** X9. A window holds nothing but request times, in order.  After any
    run, an identifier's window is a subsequence of what was recorded for
    it before followed by the clock readings of its requests: no timestamp
    is invented, duplicated or reordered. *)
Theorem X9_window_subsequence_of_requests ip calls self :
  window (run_requests calls self).2 ip
    `sublist_of` (window self ip ++ times_of ip calls)%list.
Proof.
  revert self. induction calls as [|[ip0 now] rest IH]; intros self.
  { cbn. by rewrite app_nil_r. }
  rewrite run_requests_cons. cbn [snd]. etrans; [apply IH|].
  destruct (is_allowed_unfold now ip0 self) as (_ & Hsame & Hother).
  destruct (decide (ip0 = ip)) as [->|Hne].
  - rewrite times_of_cons_same, Hsame.
    replace (window self ip ++ now :: times_of ip rest)%list
      with ((window self ip ++ [now]) ++ times_of ip rest)%list
      by (by rewrite <- app_assoc).
    apply sublist_app; [|done].
    destruct (_ <=? _)%nat.
    + etrans; [apply filter_sublist|]. by apply sublist_inserts_r.
    + apply sublist_app; [apply filter_sublist|done].
  - by rewrite times_of_cons_other, Hother.
Qed.

(** * Properties of the update endpoint *)

Section Endpoint.

Implicit Types (req : Request) (app : App) (stats : StatsRecord).

Lemma update_stats_invalid now items stats :
  (validate_positive_integer (dict_get items "donation") "donation").1 = false ∨
  (validate_benefit_categories stats (dict_get items "benefit_categories")).1 = false →
  ∃ msg, update_stats now (PDict items) stats = (Return (false, Some msg), stats).
Proof.
  intros Hfail. rewrite update_stats_dict. cbv zeta.
  destruct (validate_positive_integer _ "donation") as [[] m1] eqn:Hd.
  - destruct Hfail as [Hfail|Hfail]; [done|].
    destruct (validate_categories_fail_msg _ _ Hfail) as [msg ->]. eauto.
  - destruct (validator_fail_msg (dict_get items "donation") "donation") as [msg Hmsg];
      [by rewrite Hd|].
    rewrite Hd in Hmsg. injection Hmsg as ->. eauto.
Qed.

(** What the endpoint hands over has been decoded, hence can be printed. *)
Lemma get_json_printable req data : get_json req = Some data → str_raises data = false.
Proof.
  unfold get_json. destruct (json_body req) as [d|]; [|done].
  destruct (str_raises d) eqn:Hs; [done|]. by intros [= <-].
Qed.

Lemma update_stats_returns now data stats :
  str_raises data = false →
  ∃ ok msg stats',
    update_stats now data stats = (Return (ok, msg), stats') ∧
    (if ok then msg = None else is_Some msg ∧ stats' = stats).
Proof.
  intros Hs.
  destruct (isinstance_dict data) eqn:Hdata.
  2:{ exists false, (Some INTERNAL_ERROR), stats. by rewrite update_stats_not_dict. }
  destruct data as [| | | | | |items]; try discriminate. clear Hdata.
  destruct (validate_positive_integer (dict_get items "donation") "donation").1 eqn:H1.
  - destruct (validate_benefit_categories stats (dict_get items "benefit_categories")).1
      eqn:H2.
    + eexists true, None, _. by rewrite update_stats_valid.
    + destruct (update_stats_invalid now items stats) as (msg & ->); [by right|].
      by exists false, (Some msg), stats.
  - destruct (update_stats_invalid now items stats) as (msg & ->); [by left|].
    by exists false, (Some msg), stats.
Qed.

(** The view, by cases on what update_stats answers. *)
Lemma api_update_view_cases req now stats :
  let r := api_update_love_stats_view req now stats in
  (r.1.2 = 200%Z ∧ is_json req = true ∧
     (∃ data, get_json req = Some data ∧ truthy data = true ∧
              update_stats now data stats = (Return (true, None), r.2))) ∨
  (r.1.2 = 400%Z ∧ r.2 = stats ∧ (∃ msg, r.1.1 = error_body (PStr msg))) ∨
  (r.1.2 = 500%Z ∧ r.2 = stats ∧ is_json req = true ∧ get_json req = None).
Proof.
  unfold api_update_love_stats_view. cbv zeta.
  destruct (is_json req); cbn [negb]; [|right; left; eauto].
  destruct (get_json req) as [data|] eqn:Hj; [|by right; right].
  destruct (truthy data) eqn:Ht; cbn [negb]; [|right; left; eauto].
  destruct (update_stats_returns now data stats) as (ok & msg & st' & Hu & Hok).
  { by apply (get_json_printable req). }
  rewrite Hu. destruct ok; cbn [negb].
  - left. subst msg. split; [done|]. split; [done|]. by exists data.
  - right; left. destruct Hok as [[m ->] ->]. cbn. eauto.
Qed.

Lemma api_update_decorated req t now app :
  api_update_love_stats req t now app =
    let gate := RateLimiter.is_allowed t (client_ip_of req) (rate_limiter app) in
    if gate.1 then
      let r := api_update_love_stats_view req now (love_stats app) in
      (r.1, mkApp gate.2 r.2)
    else
      ((error_body (PStr "Rate limit exceeded"), 429%Z), mkApp gate.2 (love_stats app)).
Proof.
  unfold api_update_love_stats, rate_limit_required. cbv zeta.
  destruct (RateLimiter.is_allowed t (client_ip_of req) (rate_limiter app)) as [[] rl];
    cbn [negb fst snd]; [|done].
  by destruct (api_update_love_stats_view req now (love_stats app)).
Qed.

End Endpoint.

(** X10. The update endpoint answers 200, 400, 429 or 500 and nothing
    else.  The limiter is consulted on every request, under the address of
    the request or under "unknown" when it has none.  429 is the answer
    exactly when the limiter rejects.  The stored record changes only with
    a 200: then the body was a decoded payload that update_stats accepted
    and last_updated is the clock reading; with any other status the
    record is the record of before. *)
Theorem X10_update_endpoint_statuses req t now app :
  let r := api_update_love_stats req t now app in
  let gate := RateLimiter.is_allowed t (client_ip_of req) (rate_limiter app) in
  rate_limiter r.2 = gate.2 ∧
  (r.1.2 = 200 ∨ r.1.2 = 400 ∨ r.1.2 = 429 ∨ r.1.2 = 500)%Z ∧
  (r.1.2 = 429%Z ↔ gate.1 = false) ∧
  (if (r.1.2 =? 200)%Z then
     ∃ data, get_json req = Some data ∧
       update_stats now data (love_stats app) = (Return (true, None), love_stats r.2) ∧
       last_updated (love_stats r.2) = now
   else love_stats r.2 = love_stats app).
Proof.
  intros r gate. unfold r. rewrite api_update_decorated. cbv zeta. fold gate.
  destruct gate.1 eqn:Hgate; cbn [fst snd rate_limiter love_stats].
  2:{ split; [done|]. split; [auto|]. by split. }
  destruct (api_update_view_cases req now (love_stats app))
    as [(Hs & _ & data & Hj & _ & Hu)|[(Hs & Hst & _)|(Hs & Hst & _)]];
    rewrite Hs; cbn [Z.eqb Pos.eqb].
  - split; [done|]. split; [auto|]. split; [by split|].
    exists data. split; [done|]. split; [done|].
    by apply update_stats_success_inv in Hu as (? & _ & _ & _ & _ & _ & ->).
  - split; [done|]. split; [auto|]. by split.
  - split; [done|]. split; [auto|]. by split.
Qed.

(** X11. How the update endpoint classifies bad requests once the limiter
    has let them through.  Without a JSON content type the answer is 400
    "Content-Type must be application/json", whatever the body.  A body
    that decodes to a false value (null, false, 0, an empty string, list
    or mapping) gets 400 "No data provided" and never reaches
    update_stats: the empty mapping does not stamp last_updated here.  A
    true value that is not a mapping gets 400 with the text "Internal
    server error during update".  500 is the answer exactly when the body
    of a JSON request does not parse. *)
Theorem X11_update_endpoint_errors now stats :
  (∀ req, is_json req = false →
     api_update_love_stats_view req now stats
     = ((error_body (PStr "Content-Type must be application/json"), 400%Z), stats)) ∧
  (∀ req data, is_json req = true → get_json req = Some data → truthy data = false →
     api_update_love_stats_view req now stats
     = ((error_body (PStr "No data provided"), 400%Z), stats)) ∧
  (∀ req data, is_json req = true → get_json req = Some data → truthy data = true →
     isinstance_dict data = false →
     api_update_love_stats_view req now stats
     = ((error_body (PStr "Internal server error during update"), 400%Z), stats)) ∧
  (∀ req, (api_update_love_stats_view req now stats).1.2 = 500%Z
          ↔ is_json req = true ∧ get_json req = None).
Proof.
  split; [|split; [|split]].
  - intros req Hj. unfold api_update_love_stats_view. by rewrite Hj.
  - intros req data Hj Hd Ht. unfold api_update_love_stats_view. by rewrite Hj, Hd, Ht.
  - intros req data Hj Hd Ht Hm. unfold api_update_love_stats_view.
    rewrite Hj, Hd, Ht. cbn [negb]. by rewrite update_stats_not_dict.
  - intros req. split.
    + destruct (api_update_view_cases req now stats)
        as [(Hs & _)|[(Hs & _)|(_ & _ & Hj & Hd)]]; [rewrite Hs; done..|done].
    + intros [Hj Hd]. unfold api_update_love_stats_view. by rewrite Hj, Hd.
Qed.

Lemma X11_witness :
  api_update_love_stats_view (mkRequest (Some "203.0.113.7") false (Some (PDict example_payload)))
      "now" (Config.MOCK_LOVE_STATS "boot")
    = ((error_body (PStr "Content-Type must be application/json"), 400%Z),
       Config.MOCK_LOVE_STATS "boot") ∧
  api_update_love_stats_view (mkRequest None true (Some (PDict []))) "now"
      (Config.MOCK_LOVE_STATS "boot")
    = ((error_body (PStr "No data provided"), 400%Z), Config.MOCK_LOVE_STATS "boot") ∧
  api_update_love_stats_view (mkRequest None true (Some (PList [PInt 1]))) "now"
      (Config.MOCK_LOVE_STATS "boot")
    = ((error_body (PStr "Internal server error during update"), 400%Z),
       Config.MOCK_LOVE_STATS "boot") ∧
  (api_update_love_stats_view (mkRequest None true None) "now"
     (Config.MOCK_LOVE_STATS "boot")).1.2 = 500%Z.
Proof.
  destruct (X11_update_endpoint_errors "now" (Config.MOCK_LOVE_STATS "boot"))
    as (Hct & Hfalsy & Hnomap & H500).
  split; [by apply Hct|]. split; [by apply (Hfalsy _ (PDict []))|].
  split; [by apply (Hnomap _ (PList [PInt 1]))|].
  by apply H500.
Defined.

(** * Further properties of get_current_stats *)

(** X12. Reading is repeatable.  Two calls of get_current_stats in a row
    (at any clock readings) both succeed and return two distinct dicts
    with the same entries; the second call changes neither the first
    returned dict nor the stored record. *)
Theorem X12_snapshots_repeatable now now' (h : gmap loc (gmap string entry)) st :
  stats_of h = Some st →
  ∃ r1 h1 r2 h2,
    Store.get_current_stats now h = Some (r1, h1) ∧
    Store.get_current_stats now' h1 = Some (r2, h2) ∧
    r1 ≠ r2 ∧
    is_Some (h1 !! r1) ∧
    h2 !! r1 = h1 !! r1 ∧
    h2 !! r2 = h1 !! r1 ∧
    stats_of h2 = Some st.
Proof.
  intros Hst.
  destruct (get_current_stats_Some now h st Hst) as (top & Htop & Hget1).
  set (r1 := fresh (dom h)) in *.
  set (o := <["updatedAt" := EVal (PStr (last_updated st))]> top) in *.
  assert (Hfresh1 : r1 ∉ dom h) by apply is_fresh.
  assert (Hst1 : stats_of (<[r1 := o]> h) = Some st) by (by apply stats_of_insert_fresh).
  destruct (get_current_stats_Some now' _ st Hst1) as (top' & Htop' & Hget2).
  assert (Hne : r1 ≠ Store.MOCK_LOVE_STATS)
    by (intros E; apply Hfresh1; rewrite E; apply elem_of_dom; eauto).
  rewrite lookup_insert_ne in Htop' by done.
  assert (top' = top) as -> by congruence.
  set (r2 := fresh (dom (<[r1 := o]> h))) in *.
  assert (Hfresh2 : r2 ∉ dom (<[r1 := o]> h)) by apply is_fresh.
  assert (Hr : r1 ≠ r2).
  { intros E. apply Hfresh2. rewrite <- E, dom_insert_L.
    apply elem_of_union_l, elem_of_singleton. done. }
  eexists r1, _, r2, _. split; [exact Hget1|]. split; [exact Hget2|].
  split; [done|]. rewrite lookup_insert_eq.
  split; [by eauto|].
  split; [by rewrite lookup_insert_ne, lookup_insert_eq|].
  split; [by rewrite lookup_insert_eq|].
  by apply stats_of_insert_fresh.
Qed.

Lemma X12_witness :
  ∃ r1 h1 r2 h2,
    Store.get_current_stats "t1" (store_of (Config.MOCK_LOVE_STATS "boot")) = Some (r1, h1) ∧
    Store.get_current_stats "t2" h1 = Some (r2, h2) ∧
    r1 ≠ r2 ∧
    is_Some (h1 !! r1) ∧
    h2 !! r1 = h1 !! r1 ∧
    h2 !! r2 = h1 !! r1 ∧
    stats_of h2 = Some (Config.MOCK_LOVE_STATS "boot").
Proof.
  apply (X12_snapshots_repeatable "t1" "t2" (store_of (Config.MOCK_LOVE_STATS "boot"))
           (Config.MOCK_LOVE_STATS "boot")).
  apply stats_of_store_of.
Defined.

(** * The order of the entries of a categories mapping *)

Section EntryOrder.

Implicit Types (st : StatsRecord) (items cats : list (string * pyvalue)).





End EntryOrder.


